(** * University course management: enrollment transactions and record
      aggregation

    A shallow embedding of [app/database_app.py].  The application drives a
    SQLite store through one connection and one cursor; every operation is a
    short Python method that executes SQL statements through the cursor and
    commits or rolls back through the connection.

    The embedding follows that structure:
    - tables are lists of rows (records), in rowid order;
    - each SQL statement of the source is one definition over those lists;
    - the connection is explicit state: the committed store, the store of
      the open transaction if any, and the cursor attributes [lastrowid]
      and [rowcount];
    - Python methods are computations in a state-and-exception monad, so
      [try ... except ...: rollback; raise] reads as in the source.

    SQL INTEGER values are integers ([Z]), TEXT values are strings, a
    nullable column is an [option], and REAL values are exact rationals
    ([Q]): the grade points 4.0 ... 0.0, their averages and the two-decimal
    rounding are computed without floating-point error. *)

From Stdlib Require Import QArith Qround.
From stdpp Require Import base decidable option list numbers strings sorting.
From stdpp Require Import pretty.

Open Scope string_scope.
Open Scope Z_scope.

(** ** Tables *)

(** Columns carry the alias the source's queries use for their table
    ([s], [p], [c], [co], [e]); columns no modelled statement reads are left
    out. *)

Record StudentRow := mkStudent {
  s_StudentID : Z;
  s_FirstName : string;
  s_LastName : string;
  s_Email : string;
  s_ProgramID : Z;
  s_Status : string
}.

Record ProgramRow := mkProgram {
  p_ProgramID : Z;
  p_ProgramName : string
}.

Record CourseRow := mkCourse {
  c_CourseID : Z;
  c_Credits : Z
}.

Record OfferingRow := mkOffering {
  co_OfferingID : Z;
  co_CourseID : Z;
  co_Semester : string;
  co_Year : Z;
  co_MaxStudents : Z;
  co_CurrentEnrollment : Z
}.

Record EnrollmentRow := mkEnrollment {
  e_EnrollmentID : Z;
  e_StudentID : Z;
  e_OfferingID : Z;
  e_Grade : option string;
  e_Status : string
}.

Record Store := mkStore {
  Student : list StudentRow;
  Program : list ProgramRow;
  Course : list CourseRow;
  CourseOffering : list OfferingRow;
  Enrollment : list EnrollmentRow
}.

#[global] Instance StudentRow_eq_dec : EqDecision StudentRow.
Proof. solve_decision. Defined.
#[global] Instance ProgramRow_eq_dec : EqDecision ProgramRow.
Proof. solve_decision. Defined.
#[global] Instance CourseRow_eq_dec : EqDecision CourseRow.
Proof. solve_decision. Defined.
#[global] Instance OfferingRow_eq_dec : EqDecision OfferingRow.
Proof. solve_decision. Defined.
#[global] Instance EnrollmentRow_eq_dec : EqDecision EnrollmentRow.
Proof. solve_decision. Defined.

(** ** The connection *)

(** [sqlite3.Connection] with its cursor.  [txn] is [Some s] while a
    transaction is open, [s] being the store as the transaction sees it;
    [committed] is what a rollback returns to. *)
Record Conn := mkConn {
  committed : Store;
  txn : option Store;
  lastrowid : option Z;
  rowcount : Z
}.

(** The store a statement reads and writes. *)
Definition view (c : Conn) : Store := default (committed c) (txn c).

(** Python exceptions: the classes the source raises or catches. *)
Inductive exn :=
  | Exception (msg : string)
  | IntegrityError (msg : string)
  | OperationalError (msg : string).

(** [str(e)], as the f-strings of the [except] blocks use it. *)
Definition str (e : exn) : string :=
  match e with
  | Exception m | IntegrityError m | OperationalError m => m
  end.

(** A method body: it runs on the connection, and either returns or raises;
    what it did to the connection before raising stays done. *)
Definition M (A : Type) : Type := Conn → Conn * (exn + A).

#[global] Instance M_ret : MRet M := λ A a c, (c, inr a).
#[global] Instance M_bind : MBind M := λ A B k m c,
  match m c with
  | (c', inr a) => k a c'
  | (c', inl e) => (c', inl e)
  end.
Definition raise {A} (e : exn) : M A := λ c, (c, inl e).
(** [try: m  except Exception as e: h e] *)
Definition try_except {A} (m : M A) (h : exn → M A) : M A :=
  λ c, match m c with
       | (c', inr a) => (c', inr a)
       | (c', inl e) => h e c'
       end.

(** Reading a cursor attribute. *)
Definition get_lastrowid : M (option Z) := λ c, (c, inr (lastrowid c)).
Definition get_rowcount : M Z := λ c, (c, inr (rowcount c)).

(** [DatabaseManager.commit] and [DatabaseManager.rollback]. *)
Definition commit : M unit :=
  λ c, (mkConn (view c) None (lastrowid c) (rowcount c), inr ()).
Definition rollback : M unit :=
  λ c, (mkConn (committed c) None (lastrowid c) (rowcount c), inr ()).

(** [cursor.execute("BEGIN TRANSACTION")]: SQLite refuses to nest. *)
Definition execute_begin : M unit :=
  λ c, match txn c with
       | Some _ =>
           (mkConn (committed c) (txn c) (lastrowid c) (-1),
            inl (OperationalError
                   "cannot start a transaction within a transaction"))
       | None => (mkConn (committed c) (Some (committed c)) (lastrowid c) (-1),
                  inr ())
       end.

(** [cursor.execute(select); cursor.fetchall()]: a query reads the view and
    leaves [rowcount] at -1. *)
Definition execute_query {A} (q : Store → A) : M A :=
  λ c, (mkConn (committed c) (txn c) (lastrowid c) (-1), inr (q (view c))).

(** [fetchone()]: the first row of the result, or [None]. *)
Definition fetchone {A} (rows : list A) : option A := head rows.

(** [cursor.execute(update)]: the sqlite3 module opens a transaction before
    a data-modifying statement when none is open; [rowcount] is the number
    of rows the statement changed. *)
Definition execute_update (u : Store → Store * Z) : M unit :=
  λ c, let '(s', n) := u (view c) in
       (mkConn (committed c) (Some s') (lastrowid c) n, inr ()).

(** [cursor.execute(insert)]: a constraint violation aborts the statement
    and raises; the transaction stays open with the statement undone. *)
Definition execute_insert (i : Store → exn + Store * Z) : M unit :=
  λ c, match i (view c) with
       | inr (s', id) => (mkConn (committed c) (Some s') (Some id) 1, inr ())
       | inl e => (mkConn (committed c) (Some (view c)) (lastrowid c) (rowcount c),
                   inl e)
       end.

(** ** The store's side of an insert into Enrollment

    The schema script ([schema/create_schema.sql]) is not part of the
    sources at hand; what the store does on an insert is taken from the
    specification and from the comment in [enroll_student]. *)

(** Modelled from the spec: the identifier the store assigns to a new row
    ("read of auto-assigned identifiers"), missing with the schema.  SQLite
    gives an INTEGER PRIMARY KEY one more than the largest in the table, and
    1 in an empty table. *)
Definition next_rowid (ids : list Z) : Z :=
  match ids with
  | [] => 1
  | i :: rest => foldr Z.max i rest + 1
  end.

(** Modelled from the spec: the insert trigger of the missing schema, which
    keeps the counter ("CurrentEnrollment is incremented as a side effect of
    the insert"; in the source: "Trigger will automatically update
    CurrentEnrollment"). *)
Definition increment_enrollment (offering_id : Z) (co : OfferingRow) : OfferingRow :=
  if decide (co_OfferingID co = offering_id)
  then mkOffering (co_OfferingID co) (co_CourseID co) (co_Semester co)
         (co_Year co) (co_MaxStudents co) (co_CurrentEnrollment co + 1)
  else co.

Definition after_insert_enrollment (new : EnrollmentRow) (s : Store) : Store :=
  mkStore (Student s) (Program s) (Course s)
    (increment_enrollment (e_OfferingID new) <$> CourseOffering s)
    (Enrollment s).

(** Modelled from the spec: the constraints of the missing schema on
    Enrollment: "a uniqueness constraint on (StudentID, OfferingID)" and the
    "declared foreign keys" to Student and CourseOffering, enforced since
    [connect] sets [PRAGMA foreign_keys = ON]. *)
Definition enrollment_constraints (new : EnrollmentRow) (s : Store) : option exn :=
  if decide ((e_StudentID new, e_OfferingID new) ∈
             (λ e, (e_StudentID e, e_OfferingID e)) <$> Enrollment s)
  then Some (IntegrityError
    "UNIQUE constraint failed: Enrollment.StudentID, Enrollment.OfferingID")
  else if decide (e_StudentID new ∈ s_StudentID <$> Student s
                  ∧ e_OfferingID new ∈ co_OfferingID <$> CourseOffering s)
  then None
  else Some (IntegrityError "FOREIGN KEY constraint failed").

(** ** The statements of [EnrollmentOperations] *)

(** [SELECT MaxStudents, CurrentEnrollment FROM CourseOffering
     WHERE OfferingID = ?] *)
Definition check_query (offering_id : Z) (s : Store) : list (Z * Z) :=
  (λ co, (co_MaxStudents co, co_CurrentEnrollment co)) <$>
  filter (λ co, co_OfferingID co = offering_id) (CourseOffering s).

(** [SELECT 1 FROM Enrollment WHERE StudentID = ? AND OfferingID = ?] *)
Definition duplicate_check (student_id offering_id : Z) (s : Store) : list Z :=
  (λ _, 1) <$>
  filter (λ e, e_StudentID e = student_id ∧ e_OfferingID e = offering_id)
         (Enrollment s).

(** [INSERT INTO Enrollment (StudentID, OfferingID, Status)
     VALUES (?, ?, 'Enrolled')]: the new row has no grade. *)
Definition insert_query (student_id offering_id : Z) (s : Store)
  : exn + Store * Z :=
  let id := next_rowid (e_EnrollmentID <$> Enrollment s) in
  let new := mkEnrollment id student_id offering_id None "Enrolled" in
  match enrollment_constraints new s with
  | Some e => inl e
  | None =>
      inr (after_insert_enrollment new
             (mkStore (Student s) (Program s) (Course s) (CourseOffering s)
                      (Enrollment s ++ [new])),
           id)
  end.

(** [UPDATE Enrollment SET Grade = ?, Status = 'Completed'
     WHERE EnrollmentID = ?] *)
Definition grade_query (grade : string) (enrollment_id : Z) (s : Store)
  : Store * Z :=
  let hit e := e_EnrollmentID e = enrollment_id in
  (mkStore (Student s) (Program s) (Course s) (CourseOffering s)
     ((λ e, if decide (hit e)
            then mkEnrollment (e_EnrollmentID e) (e_StudentID e)
                   (e_OfferingID e) (Some grade) "Completed"
            else e) <$> Enrollment s),
   Z.of_nat (length (filter hit (Enrollment s)))).

(** [UPDATE Enrollment SET Status = 'Withdrawn', Grade = 'W'
     WHERE EnrollmentID = ? AND Status = 'Enrolled'] *)
Definition update_query (enrollment_id : Z) (s : Store) : Store * Z :=
  let hit e := e_EnrollmentID e = enrollment_id ∧ e_Status e = "Enrolled" in
  (mkStore (Student s) (Program s) (Course s) (CourseOffering s)
     ((λ e, if decide (hit e)
            then mkEnrollment (e_EnrollmentID e) (e_StudentID e)
                   (e_OfferingID e) (Some "W") "Withdrawn"
            else e) <$> Enrollment s),
   Z.of_nat (length (filter hit (Enrollment s)))).

(** ** [EnrollmentOperations] *)

Definition enroll_student (student_id offering_id : Z) : M (option Z) :=
  try_except
    (execute_begin;;
     rows ← execute_query (check_query offering_id);
     match fetchone rows : option (Z * Z) with
     | None => raise (Exception "Course offering not found")
     | Some (MaxStudents, CurrentEnrollment) =>
         if decide (CurrentEnrollment >= MaxStudents)
         then raise (Exception "Course offering is full")
         else
           rows ← execute_query (duplicate_check student_id offering_id);
           match fetchone rows : option Z with
           | Some _ =>
               raise (Exception "Student is already enrolled in this course")
           | None =>
               execute_insert (insert_query student_id offering_id);;
               commit;;
               get_lastrowid
           end
     end)
    (λ e, rollback;; raise (Exception ("Enrollment failed: " +:+ str e))).

Definition valid_grades : list string := ["A"; "B"; "C"; "D"; "F"; "P"; "W"].

(** [', '.join(xs)] *)
Fixpoint join (sep : string) (xs : list string) : string :=
  match xs with
  | [] => ""
  | [x] => x
  | x :: rest => x +:+ sep +:+ join sep rest
  end.

Definition update_grade (enrollment_id : Z) (grade : string) : M bool :=
  try_except
    (if decide (grade ∉ valid_grades)
     then raise (Exception ("Invalid grade. Must be one of: "
                            +:+ join ", " valid_grades))
     else
       execute_update (grade_query grade enrollment_id);;
       n ← get_rowcount;
       if decide (n = 0)
       then raise (Exception "Enrollment not found")
       else commit;; mret true)
    (λ e, rollback;; raise (Exception ("Grade update failed: " +:+ str e))).

Definition withdraw_from_course (enrollment_id : Z) : M bool :=
  try_except
    (execute_begin;;
     execute_update (update_query enrollment_id);;
     n ← get_rowcount;
     if decide (n = 0)
     then raise (Exception "Enrollment not found or already completed")
     else commit;; mret true)
    (λ e, rollback;; raise (Exception ("Withdrawal failed: " +:+ str e))).

(** ** SQL expressions and aggregates *)

(** REAL values; [NULL] is [None]. *)
Abbreviation real := (option Q).

(** [CASE e.Grade WHEN 'A' THEN 4.0 ... WHEN 'F' THEN 0.0 ELSE NULL END];
    without an [ELSE] the [CASE] is [NULL] as well. *)
Definition GradePoints (grade : option string) : real :=
  if decide (grade = Some "A") then Some (4 # 1)%Q
  else if decide (grade = Some "B") then Some (3 # 1)%Q
  else if decide (grade = Some "C") then Some (2 # 1)%Q
  else if decide (grade = Some "D") then Some (1 # 1)%Q
  else if decide (grade = Some "F") then Some (0 # 1)%Q
  else None.

(** The non-[NULL] values of a column. *)
Definition not_null {A} (xs : list (option A)) : list A := omap id xs.

(** [COUNT(x)] *)
Definition COUNT {A} (xs : list (option A)) : Z :=
  Z.of_nat (length (not_null xs)).

(** [COUNT(DISTINCT x)] *)
Definition COUNT_DISTINCT `{EqDecision A} (xs : list (option A)) : Z :=
  Z.of_nat (length (remove_dups (not_null xs))).

(** [SUM(x)] over integers: [NULL] when no row has a value. *)
Definition SUM (xs : list (option Z)) : option Z :=
  match not_null xs with
  | [] => None
  | ys => Some (foldr Z.add 0 ys)
  end.

(** [AVG(x)]: the sum of the values over their number, [NULL] when no row
    has a value. *)
Definition AVG (xs : list real) : real :=
  match not_null xs with
  | [] => None
  | ys => Some (foldr Qplus 0 ys / inject_Z (Z.of_nat (length ys)))%Q
  end.

(** Rounding to [n] decimals, halves away from zero. *)
Definition round_to (n : nat) (x : Q) : Q :=
  let p := inject_Z (10 ^ Z.of_nat n) in
  let y := (x * p)%Q in
  let m := if Qle_bool 0 y then Qfloor (y + (1 # 2)) else - Qfloor (- y + (1 # 2)) in
  Qred (inject_Z m / p).

(** [ROUND(x, n)] *)
Definition ROUND (x : real) (n : nat) : real := round_to n <$> x.

(** [CAST(x AS FLOAT)] of an integer. *)
Definition CAST_FLOAT (x : option Z) : real := inject_Z <$> x.

(** [x / y] on REAL: [NULL] when an operand is, and when [y] is zero. *)
Definition sql_div (x y : real) : real :=
  match x, y with
  | Some a, Some b => if Qeq_bool b 0 then None else Some (a / b)%Q
  | _, _ => None
  end.

(** [x * k] on REAL. *)
Definition sql_mul (x : real) (k : Q) : real := (λ a, a * k)%Q <$> x.

(** [x < ?] in a [WHERE] or [HAVING]: a comparison with [NULL] is not
    true. *)
Definition sql_lt (x : real) (y : Q) : Prop :=
  match x with
  | Some a => (a < y)%Q
  | None => False
  end.

#[global] Instance sql_lt_dec x y : Decision (sql_lt x y).
Proof.
  destruct x as [a|]; simpl; [|right; tauto].
  destruct (Qlt_le_dec a y); [left; assumption|right].
  intros H; exact (Qlt_not_le _ _ H q).
Defined.

(** The order of [ORDER BY x ASC]: [NULL] sorts first. *)
Definition sql_le (x y : real) : Prop :=
  match x, y with
  | None, _ => True
  | Some _, None => False
  | Some a, Some b => (a <= b)%Q
  end.

#[global] Instance sql_le_dec x y : Decision (sql_le x y).
Proof.
  destruct x as [a|], y as [b|]; simpl; try (left; exact I); try (right; tauto).
  destruct (Qlt_le_dec b a); [right|left; assumption].
  intros H; exact (Qlt_not_le _ _ q H).
Defined.

(** [GROUP BY key]: one group for each distinct key, holding the rows that
    have it. *)
Definition group_by `{EqDecision K} {R} (key : R → K) (rows : list R)
  : list (K * list R) :=
  (λ k, (k, filter (λ r, key r = k) rows)) <$> remove_dups (key <$> rows).

(** ** [StudentOperations.calculate_gpa] *)

Record GpaRow := mkGpaRow {
  CoursesCompleted : Z;
  TotalCredits : option Z;
  GPA : real
}.

(** [FROM Enrollment e JOIN CourseOffering co ON e.OfferingID = co.OfferingID
     JOIN Course c ON co.CourseID = c.CourseID
     WHERE e.StudentID = ? AND e.Grade IS NOT NULL] *)
Definition gpa_from (student_id : Z) (s : Store)
  : list (EnrollmentRow * OfferingRow * CourseRow) :=
  filter (λ r, e_StudentID r.1.1 = student_id ∧ e_Grade r.1.1 ≠ None)
    (e ← Enrollment s;
     co ← filter (λ co, e_OfferingID e = co_OfferingID co) (CourseOffering s);
     c ← filter (λ c, co_CourseID co = c_CourseID c) (Course s);
     [(e, co, c)]).

(** The query of [calculate_gpa]: an aggregate without [GROUP BY] has one
    result row. *)
Definition gpa_query (student_id : Z) (s : Store) : list GpaRow :=
  let rows := gpa_from student_id s in
  [mkGpaRow
     (COUNT ((λ r, Some (e_EnrollmentID r.1.1)) <$> rows))
     (SUM ((λ r, Some (c_Credits r.2)) <$> rows))
     (ROUND (AVG ((λ r, GradePoints (e_Grade r.1.1)) <$> rows)) 2)].

Definition calculate_gpa (student_id : Z) : M (option GpaRow) :=
  rows ← execute_query (gpa_query student_id);
  mret (fetchone rows).

(** ** [ReportingOperations] *)

Record SemesterRow := mkSemesterRow {
  CoursesOffered : Z;
  UniqueStudents : Z;
  TotalEnrollments : Z;
  TotalCapacity : option Z;
  TotalEnrolled : option Z;
  OverallFillRate : real
}.

(** [FROM CourseOffering co LEFT JOIN Enrollment e
     ON co.OfferingID = e.OfferingID
     WHERE co.Semester = ? AND co.Year = ?]: an offering without enrollments
    keeps one row, with [NULL] for the columns of [e]. *)
Definition semester_from (semester : string) (year : Z) (s : Store)
  : list (OfferingRow * option EnrollmentRow) :=
  filter (λ r, co_Semester r.1 = semester ∧ co_Year r.1 = year)
    (co ← CourseOffering s;
     match filter (λ e, co_OfferingID co = e_OfferingID e) (Enrollment s) with
     | [] => [(co, None)]
     | es => (λ e, (co, Some e)) <$> es
     end).

Definition semester_query (semester : string) (year : Z) (s : Store)
  : list SemesterRow :=
  let rows := semester_from semester year s in
  let co (r : OfferingRow * option EnrollmentRow) := r.1 in
  let e (r : OfferingRow * option EnrollmentRow) := r.2 in
  let max_students := SUM ((λ r, Some (co_MaxStudents (co r))) <$> rows) in
  let current_enrollment :=
    SUM ((λ r, Some (co_CurrentEnrollment (co r))) <$> rows) in
  [mkSemesterRow
     (COUNT_DISTINCT ((λ r, Some (co_OfferingID (co r))) <$> rows))
     (COUNT_DISTINCT ((λ r, e_StudentID <$> e r) <$> rows))
     (COUNT ((λ r, e_EnrollmentID <$> e r) <$> rows))
     max_students
     current_enrollment
     (ROUND (sql_mul (sql_div (CAST_FLOAT current_enrollment)
                              (CAST_FLOAT max_students))
                     (100 # 1)) 1)].

Definition semester_enrollment_report (semester : string) (year : Z)
  : M (option SemesterRow) :=
  rows ← execute_query (semester_query semester year);
  mret (fetchone rows).

Record RiskRow := mkRiskRow {
  StudentID : Z;
  StudentName : string;
  Email : string;
  ProgramName : string;
  risk_CoursesCompleted : Z;
  risk_GPA : real;
  FailedCourses : Z
}.

(** [FROM Student s JOIN Program p ON s.ProgramID = p.ProgramID
     JOIN Enrollment e ON s.StudentID = e.StudentID
     WHERE e.Grade IS NOT NULL AND s.Status = 'Active'] *)
Definition risk_from (s : Store)
  : list (StudentRow * ProgramRow * EnrollmentRow) :=
  filter (λ r, e_Grade r.2 ≠ None ∧ s_Status r.1.1 = "Active")
    (st ← Student s;
     p ← filter (λ p, s_ProgramID st = p_ProgramID p) (Program s);
     e ← filter (λ e, s_StudentID st = e_StudentID e) (Enrollment s);
     [(st, p, e)]).

(** [s.FirstName || ' ' || s.LastName] *)
Definition full_name (st : StudentRow) : string :=
  s_FirstName st +:+ " " +:+ s_LastName st.

(** The key of [GROUP BY s.StudentID, StudentName, s.Email, p.ProgramName]. *)
Definition risk_key (r : StudentRow * ProgramRow * EnrollmentRow)
  : Z * string * string * string :=
  (s_StudentID r.1.1, full_name r.1.1, s_Email r.1.1, p_ProgramName r.1.2).

(** The select list, on one group. *)
Definition risk_row
    (g : Z * string * string * string
         * list (StudentRow * ProgramRow * EnrollmentRow)) : RiskRow :=
  let '(student_id, student_name, email, program_name, rows) := g in
  mkRiskRow student_id student_name email program_name
    (COUNT ((λ r, Some (e_EnrollmentID r.2)) <$> rows))
    (ROUND (AVG ((λ r, GradePoints (e_Grade r.2)) <$> rows)) 2)
    (COUNT ((λ r, if decide (e_Grade r.2 = Some "F") then Some 1 else None)
            <$> rows)).

(** The order of [ORDER BY GPA ASC]; rows of equal GPA come in no
    particular order. *)
Definition by_gpa (r1 r2 : RiskRow) : Prop := sql_le (risk_GPA r1) (risk_GPA r2).

#[global] Instance by_gpa_dec r1 r2 : Decision (by_gpa r1 r2).
Proof. unfold by_gpa. apply _. Defined.

(** [... GROUP BY ... HAVING GPA < ? ORDER BY GPA ASC], [GPA] being the
    rounded average of the select list. *)
Definition risk_query (gpa_threshold : Q) (s : Store) : list RiskRow :=
  merge_sort by_gpa
    (filter (λ r, sql_lt (risk_GPA r) gpa_threshold)
       (risk_row <$> group_by risk_key (risk_from s))).

Definition students_at_risk (gpa_threshold : Q) : M (list RiskRow) :=
  execute_query (risk_query gpa_threshold).

(** ** Reading the store

    Lookups and row sets the properties are stated with. *)

(** The offering a lookup by identifier finds. *)
Definition offering (offering_id : Z) (s : Store) : option OfferingRow :=
  head (filter (λ co, co_OfferingID co = offering_id) (CourseOffering s)).

(** The enrollment rows of a (student, offering) pair. *)
Definition enrollments_of (student_id offering_id : Z) (s : Store)
  : list EnrollmentRow :=
  filter (λ e, e_StudentID e = student_id ∧ e_OfferingID e = offering_id)
         (Enrollment s).

(** The offerings of a term. *)
Definition term_offerings (semester : string) (year : Z) (s : Store)
  : list OfferingRow :=
  filter (λ co, co_Semester co = semester ∧ co_Year co = year)
         (CourseOffering s).

(** The course a lookup by identifier finds. *)
Definition course (course_id : Z) (s : Store) : option CourseRow :=
  head (filter (λ c, c_CourseID c = course_id) (Course s)).

(** The course an enrollment is for, through its offering. *)
Definition course_of (s : Store) (e : EnrollmentRow) : option CourseRow :=
  co ← offering (e_OfferingID e) s; course (co_CourseID co) s.

(** The program a lookup by identifier finds. *)
Definition program (program_id : Z) (s : Store) : option ProgramRow :=
  head (filter (λ p, p_ProgramID p = program_id) (Program s)).

(** Primary keys identify rows and foreign keys point at rows: what the
    specification's data model asks of the store ("surrogate id",
    "declared foreign keys"), here for the tables the aggregates join. *)
Definition integrity (s : Store) : Prop :=
  NoDup (s_StudentID <$> Student s) ∧
  NoDup (p_ProgramID <$> Program s) ∧
  NoDup (c_CourseID <$> Course s) ∧
  NoDup (co_OfferingID <$> CourseOffering s) ∧
  Forall (λ st, s_ProgramID st ∈ p_ProgramID <$> Program s) (Student s) ∧
  Forall (λ co, co_CourseID co ∈ c_CourseID <$> Course s) (CourseOffering s) ∧
  Forall (λ e, e_OfferingID e ∈ co_OfferingID <$> CourseOffering s)
         (Enrollment s).

#[global] Instance integrity_dec s : Decision (integrity s).
Proof. unfold integrity. apply _. Defined.

(** The enrollments of a student that have a grade. *)
Definition graded_enrollments (student_id : Z) (s : Store)
  : list EnrollmentRow :=
  filter (λ e, e_StudentID e = student_id ∧ e_Grade e ≠ None) (Enrollment s).

(** The GPA column: the average of the grade points, rounded to two
    decimals; [NULL] when no graded enrollment has points. *)
Definition student_gpa (student_id : Z) (s : Store) : real :=
  ROUND (AVG ((λ e, GradePoints (e_Grade e)) <$>
              graded_enrollments student_id s)) 2.

(** The row the select list gives for a student. *)
Definition student_risk_row (s : Store) (st : StudentRow) (p : ProgramRow)
  : RiskRow :=
  let graded := graded_enrollments (s_StudentID st) s in
  mkRiskRow (s_StudentID st) (full_name st) (s_Email st) (p_ProgramName p)
    (Z.of_nat (length graded))
    (student_gpa (s_StudentID st) s)
    (Z.of_nat (length (filter (λ e, e_Grade e = Some "F") graded))).

(** The grade-to-point mapping as the specification gives it: A=4.0,
    B=3.0, C=2.0, D=1.0, F=0.0. *)
Definition grade_point_mapping : list (string * Q) :=
  [("A", 4 # 1); ("B", 3 # 1); ("C", 2 # 1); ("D", 1 # 1); ("F", 0 # 1)]%Q.

(** The points of a grade by that mapping; a grade that is not in it (P, W,
    any other text) and the absent grade have none, which is not the same
    as having 0. *)
Definition mapped_points (grade : option string) : option Q :=
  g ← grade;
  snd <$> head (filter (λ entry, entry.1 = g) grade_point_mapping).

(** ** Stores to run the operations on *)

(** [DatabaseManager.connect] on a database file holding [s]: no
    transaction is open and the cursor has not run a statement. *)
Definition connect (s : Store) : Conn := mkConn s None None (-1).

(** A small store to run the operations on. *)
Definition sample_store : Store :=
  mkStore
    [mkStudent 1 "Ada" "Lovelace" "ada@uni.edu" 1 "Active";
     mkStudent 2 "Alan" "Turing" "alan@uni.edu" 1 "Active"]
    [mkProgram 1 "Computer Science"]
    [mkCourse 1 3; mkCourse 2 4]
    [mkOffering 1 1 "Spring" 2024 2 0; mkOffering 2 2 "Spring" 2024 1 0]
    [].

(** A store whose second offering is full. *)
Definition full_store : Store :=
  mkStore
    [mkStudent 1 "Ada" "Lovelace" "ada@uni.edu" 1 "Active";
     mkStudent 2 "Alan" "Turing" "alan@uni.edu" 1 "Active"]
    [mkProgram 1 "Computer Science"]
    [mkCourse 1 3; mkCourse 2 4]
    [mkOffering 1 1 "Spring" 2024 2 0; mkOffering 2 2 "Spring" 2024 1 1]
    [mkEnrollment 1 1 2 None "Enrolled"].

(** Spring 2024 has two offerings: offering 1 (30 seats, counter at 2) with
    the enrollments of students 1 and 2, and offering 2 (10 seats, counter
    at 0) without enrollments. *)
Definition term_store : Store :=
  mkStore
    [mkStudent 1 "Ada" "Lovelace" "ada@uni.edu" 1 "Active";
     mkStudent 2 "Alan" "Turing" "alan@uni.edu" 1 "Active"]
    [mkProgram 1 "Computer Science"]
    [mkCourse 1 3; mkCourse 2 4]
    [mkOffering 1 1 "Spring" 2024 30 2; mkOffering 2 2 "Spring" 2024 10 0]
    [mkEnrollment 1 1 1 None "Enrolled"; mkEnrollment 2 2 1 None "Enrolled"].

(** A store with grades: student 1 has A, B, B; student 2 has F, W, D;
    student 3 is enrolled without a grade; student 4 is not Active. *)
Definition graded_store : Store :=
  mkStore
    [mkStudent 1 "Ada" "Lovelace" "ada@uni.edu" 1 "Active";
     mkStudent 2 "Alan" "Turing" "alan@uni.edu" 1 "Active";
     mkStudent 3 "Grace" "Hopper" "grace@uni.edu" 1 "Active";
     mkStudent 4 "Edsger" "Dijkstra" "edsger@uni.edu" 1 "Inactive"]
    [mkProgram 1 "Computer Science"]
    [mkCourse 1 3; mkCourse 2 4; mkCourse 3 2]
    [mkOffering 1 1 "Spring" 2024 30 3; mkOffering 2 2 "Spring" 2024 10 2;
     mkOffering 3 3 "Fall" 2024 20 3]
    [mkEnrollment 1 1 1 (Some "A") "Completed";
     mkEnrollment 2 1 2 (Some "B") "Completed";
     mkEnrollment 3 1 3 (Some "B") "Completed";
     mkEnrollment 4 2 1 (Some "F") "Completed";
     mkEnrollment 5 2 2 (Some "W") "Withdrawn";
     mkEnrollment 6 2 3 (Some "D") "Completed";
     mkEnrollment 7 3 1 None "Enrolled";
     mkEnrollment 8 4 3 (Some "F") "Completed"].

(** ** Two claims of the specification, as worded *)

(** The claim about enrolling twice, as the specification words it, at one
    connection, student and offering: the offering has a free seat, the
    first call returns, the second raises "Student is already enrolled in
    this course" (the spec's DuplicateEnrollmentError), and one row of the
    pair exists afterwards. *)
Definition enroll_twice_claim (c : Conn) (student_id offering_id : Z) : Prop :=
  txn c = None →
  student_id ∈ s_StudentID <$> Student (committed c) →
  (∃ co, offering offering_id (committed c) = Some co
         ∧ co_CurrentEnrollment co < co_MaxStudents co) →
  ∃ c1 r1 c2,
    enroll_student student_id offering_id c = (c1, inr r1) ∧
    enroll_student student_id offering_id c1 =
      (c2, inl (Exception
         "Enrollment failed: Student is already enrolled in this course")) ∧
    length (enrollments_of student_id offering_id (committed c2)) = 1%nat.

(** The claim about the students returned, as the specification words it, at
    one threshold and connection: a student is returned exactly when Active
    with an average of grade points, grades without points left out,
    strictly below the threshold. *)
Definition at_risk_claim (gpa_threshold : Q) (c : Conn) : Prop :=
  ∃ c' rows,
    students_at_risk gpa_threshold c = (c', inr rows) ∧
    ∀ st, st ∈ Student (view c) →
      s_StudentID st ∈ StudentID <$> rows ↔
      s_Status st = "Active" ∧
      sql_lt (AVG ((λ e, GradePoints (e_Grade e)) <$>
                   graded_enrollments (s_StudentID st) (view c)))
             gpa_threshold.

(** The enrollment rows of an offering, whatever their Status. *)
Definition offering_enrollments (offering_id : Z) (s : Store)
  : list EnrollmentRow :=
  filter (λ e, e_OfferingID e = offering_id) (Enrollment s).

(** The rows one offering has in [CourseOffering co LEFT JOIN Enrollment e
    ON co.OfferingID = e.OfferingID]: one for each of its enrollments, and
    one without enrollment when it has none. *)
Definition joined_enrollments (s : Store) (co : OfferingRow)
  : list (OfferingRow * option EnrollmentRow) :=
  match filter (λ e, co_OfferingID co = e_OfferingID e) (Enrollment s) with
  | [] => [(co, None)]
  | es => (λ e, (co, Some e)) <$> es
  end.

(** The number of enrollment rows of an offering. *)
Definition enrollment_count (s : Store) (co : OfferingRow) : Z :=
  Z.of_nat (length (offering_enrollments (co_OfferingID co) s)).

(** ** [CourseOperations.get_course_enrollment_stats] *)

Record StatsRow := mkStatsRow {
  Term : string;
  stats_MaxStudents : Z;
  stats_CurrentEnrollment : Z;
  FillRate : real;
  stats_TotalEnrollments : Z;
  GradeA : Z;
  GradeB : Z;
  GradeC : Z;
  GradeDF : Z
}.

(** [co.Semester || ' ' || co.Year]: the year is written in decimal. *)
Definition term_name (co : OfferingRow) : string :=
  co_Semester co +:+ " " +:+ pretty (co_Year co).

(** [ROUND(CAST(co.CurrentEnrollment AS FLOAT) / co.MaxStudents * 100, 1)] *)
Definition fill_rate (current_enrollment max_students : Z) : real :=
  ROUND (sql_mul (sql_div (CAST_FLOAT (Some current_enrollment))
                          (CAST_FLOAT (Some max_students)))
                 (100 # 1)) 1.

(** [COUNT(CASE WHEN <test on e.Grade> THEN 1 END)]: the [CASE] is [NULL]
    when the test is not true, so also on the row an offering without
    enrollments has in the join. *)
Definition COUNT_CASE (test : option string → Prop)
    `{!∀ g, Decision (test g)} (es : list (option EnrollmentRow)) : Z :=
  COUNT ((λ oe : option EnrollmentRow,
            e ← oe; if decide (test (e_Grade e)) then Some 1 else None)
         <$> es).

(** [FROM CourseOffering co LEFT JOIN Enrollment e
     ON co.OfferingID = e.OfferingID WHERE co.CourseID = ?] *)
Definition stats_from (course_id : Z) (s : Store)
  : list (OfferingRow * option EnrollmentRow) :=
  filter (λ r, co_CourseID r.1 = course_id)
         (CourseOffering s ≫= joined_enrollments s).

(** The key of [GROUP BY co.OfferingID, Term, co.MaxStudents,
    co.CurrentEnrollment]. *)
Definition stats_key (r : OfferingRow * option EnrollmentRow)
  : Z * string * Z * Z :=
  (co_OfferingID r.1, term_name r.1, co_MaxStudents r.1,
   co_CurrentEnrollment r.1).

(** The select list, on one group. *)
Definition stats_row
    (g : Z * string * Z * Z * list (OfferingRow * option EnrollmentRow))
  : StatsRow :=
  let '(_, term, max_students, current_enrollment, rows) := g in
  let es := snd <$> rows in
  mkStatsRow term max_students current_enrollment
    (fill_rate current_enrollment max_students)
    (COUNT ((λ oe : option EnrollmentRow, e_EnrollmentID <$> oe) <$> es))
    (COUNT_CASE (λ g, g = Some "A") es)
    (COUNT_CASE (λ g, g = Some "B") es)
    (COUNT_CASE (λ g, g = Some "C") es)
    (COUNT_CASE (λ g, g = Some "D" ∨ g = Some "F") es).

(** [co.Year] and [co.Semester] in the [ORDER BY]: columns that are not
    grouped, read from a row of the group (the first one here; the rows of
    a group agree on the term). *)
Definition stats_order_key
    (g : Z * string * Z * Z * list (OfferingRow * option EnrollmentRow))
  : option (Z * string) :=
  (λ r, (co_Year r.1, co_Semester r.1)) <$> head g.2.

(** [ORDER BY co.Year DESC, co.Semester]: later years first, and within a
    year the semesters as text, byte by byte. *)
Definition newest_first (k1 k2 : Z * string) : Prop :=
  k2.1 < k1.1 ∨ (k1.1 = k2.1 ∧ String.leb k1.2 k2.2 = true).

Definition stats_order
    (g1 g2 : Z * string * Z * Z * list (OfferingRow * option EnrollmentRow))
  : Prop :=
  match stats_order_key g1, stats_order_key g2 with
  | Some k1, Some k2 => newest_first k1 k2
  | None, _ => True
  | Some _, None => False
  end.

#[global] Instance newest_first_dec k1 k2 : Decision (newest_first k1 k2).
Proof. unfold newest_first. apply _. Defined.

#[global] Instance stats_order_dec g1 g2 : Decision (stats_order g1 g2).
Proof.
  unfold stats_order.
  destruct (stats_order_key g1), (stats_order_key g2); apply _.
Defined.

Definition stats_query (course_id : Z) (s : Store) : list StatsRow :=
  stats_row <$>
  merge_sort stats_order (group_by stats_key (stats_from course_id s)).

Definition get_course_enrollment_stats (course_id : Z) : M (list StatsRow) :=
  execute_query (stats_query course_id).

(** The statistics of one offering, from its own row and its enrollment
    rows. *)
Definition offering_stats (s : Store) (co : OfferingRow) : StatsRow :=
  let es := offering_enrollments (co_OfferingID co) s in
  let graded (test : option string → Prop) `{!∀ g, Decision (test g)} :=
    Z.of_nat (length (filter (λ e, test (e_Grade e)) es)) in
  mkStatsRow (term_name co) (co_MaxStudents co) (co_CurrentEnrollment co)
    (fill_rate (co_CurrentEnrollment co) (co_MaxStudents co))
    (Z.of_nat (length es))
    (graded (λ g, g = Some "A"))
    (graded (λ g, g = Some "B"))
    (graded (λ g, g = Some "C"))
    (graded (λ g, g = Some "D" ∨ g = Some "F")).

(** The offerings of a course. *)
Definition course_offerings (course_id : Z) (s : Store) : list OfferingRow :=
  filter (λ co, co_CourseID co = course_id) (CourseOffering s).

(** ** Sequences of calls

    A caller that issues enrollment operations one after the other on the
    same connection and catches what they raise. *)

Inductive command :=
  | Enroll (student_id offering_id : Z)
  | UpdateGrade (enrollment_id : Z) (grade : string)
  | Withdraw (enrollment_id : Z).

(** The connection after one call, whether it returned or raised. *)
Definition run_command (cmd : command) (c : Conn) : Conn :=
  match cmd with
  | Enroll student_id offering_id => (enroll_student student_id offering_id c).1
  | UpdateGrade enrollment_id grade => (update_grade enrollment_id grade c).1
  | Withdraw enrollment_id => (withdraw_from_course enrollment_id c).1
  end.

Definition run_commands (cmds : list command) (c : Conn) : Conn :=
  foldl (λ c cmd, run_command cmd c) c cmds.

(** No offering holds more than its capacity. *)
Definition capacity_respected (s : Store) : Prop :=
  Forall (λ co, co_CurrentEnrollment co ≤ co_MaxStudents co) (CourseOffering s).

(** The counter of every offering is the number of its enrollment rows. *)
Definition counters_in_sync (s : Store) : Prop :=
  Forall (λ co, co_CurrentEnrollment co =
                Z.of_nat (length (offering_enrollments (co_OfferingID co) s)))
         (CourseOffering s).

(** No two enrollment rows share an identifier, and none share a (student,
    offering) pair. *)
Definition enrollments_unique (s : Store) : Prop :=
  NoDup (e_EnrollmentID <$> Enrollment s) ∧
  NoDup ((λ e, (e_StudentID e, e_OfferingID e)) <$> Enrollment s).

(** Whose row an enrollment is: its identifier, student and offering. *)
Definition enrollment_identity (e : EnrollmentRow) : Z * Z * Z :=
  (e_EnrollmentID e, e_StudentID e, e_OfferingID e).

(** An offering row that differs from an earlier one at most by a larger
    counter. *)
Definition counter_grew (co co' : OfferingRow) : Prop :=
  co_OfferingID co' = co_OfferingID co ∧ co_CourseID co' = co_CourseID co ∧
  co_Semester co' = co_Semester co ∧ co_Year co' = co_Year co ∧
  co_MaxStudents co' = co_MaxStudents co ∧
  co_CurrentEnrollment co ≤ co_CurrentEnrollment co'.

(** What one call can do to the committed store of a connection without an
    open transaction: nothing; rewrite Grade and Status of enrollment rows;
    or append one enrollment and count it on its offering. *)
Inductive mutation (s : Store) : Store → Prop :=
  | mutation_none : mutation s s
  | mutation_update (f : EnrollmentRow → EnrollmentRow) :
      (∀ e, e_EnrollmentID (f e) = e_EnrollmentID e
            ∧ e_StudentID (f e) = e_StudentID e
            ∧ e_OfferingID (f e) = e_OfferingID e) →
      mutation s (mkStore (Student s) (Program s) (Course s)
                    (CourseOffering s) (f <$> Enrollment s))
  | mutation_insert student_id offering_id co :
      offering offering_id s = Some co →
      co_CurrentEnrollment co < co_MaxStudents co →
      enrollments_of student_id offering_id s = [] →
      mutation s
        (mkStore (Student s) (Program s) (Course s)
           (increment_enrollment offering_id <$> CourseOffering s)
           (Enrollment s ++
              [mkEnrollment (next_rowid (e_EnrollmentID <$> Enrollment s))
                 student_id offering_id None "Enrolled"])).

(** * Properties *)

(** ** The store's identifiers *)

Lemma foldr_max_ge (i : Z) (rest : list Z) :
  i ≤ foldr Z.max i rest ∧ ∀ j, j ∈ rest → j ≤ foldr Z.max i rest.
Proof.
  induction rest as [|k rest [IH1 IH2]]; simpl.
  - split; [lia|]. intros j Hj. inversion Hj.
  - split; [lia|]. intros j Hj. apply elem_of_cons in Hj as [->|Hj].
    + lia.
    + specialize (IH2 j Hj). lia.
Qed.

Lemma next_rowid_fresh (ids : list Z) : next_rowid ids ∉ ids.
Proof.
  destruct ids as [|i rest]; simpl.
  - apply not_elem_of_nil.
  - destruct (foldr_max_ge i rest) as [H1 H2].
    intros [E|H]%elem_of_cons.
    + lia.
    + specialize (H2 _ H). lia.
Qed.

(** ** Running a method *)

(** Unfolds the monad and the connection primitives, so that a method
    applied to a connection reduces to a case analysis. *)
Ltac run :=
  unfold try_except, mbind, M_bind, mret, M_ret, raise, execute_begin,
    execute_query, execute_update, execute_insert, commit, rollback,
    get_lastrowid, get_rowcount, view in *; simpl in *.

Lemma filter_none {A} (P : A → Prop) `{!∀ x, Decision (P x)} (l : list A) :
  (∀ x, x ∈ l → ¬ P x) → filter P l = [].
Proof.
  induction l as [|a l IH]; intros Hl; [done|].
  rewrite filter_cons_False by (apply Hl; left).
  apply IH. intros x Hx. apply Hl. by right.
Qed.

Lemma fetchone_check_query offering_id s :
  fetchone (check_query offering_id s) =
  (λ co, (co_MaxStudents co, co_CurrentEnrollment co)) <$> offering offering_id s.
Proof.
  unfold fetchone, check_query, offering.
  by destruct (filter _ (CourseOffering s)).
Qed.

Lemma fetchone_duplicate_check student_id offering_id s :
  fetchone (duplicate_check student_id offering_id s) =
  match enrollments_of student_id offering_id s with
  | [] => None
  | _ => Some 1
  end.
Proof.
  unfold fetchone, duplicate_check, enrollments_of.
  by destruct (filter _ (Enrollment s)).
Qed.

Lemma offering_elem_of offering_id s co :
  offering offering_id s = Some co →
  co ∈ CourseOffering s ∧ co_OfferingID co = offering_id.
Proof.
  unfold offering. intros H.
  assert (co ∈ filter (λ co, co_OfferingID co = offering_id) (CourseOffering s))
    as Hin by (destruct (filter _ _); simplify_eq/=; left).
  by apply list_elem_of_filter in Hin as [? ?].
Qed.

Lemma enrollments_of_nil student_id offering_id s :
  enrollments_of student_id offering_id s = [] ↔
  (student_id, offering_id) ∉
    (λ e, (e_StudentID e, e_OfferingID e)) <$> Enrollment s.
Proof.
  unfold enrollments_of. split.
  - intros Hnil (e & Heq & Hin)%list_elem_of_fmap.
    assert (e ∈ filter (λ e, e_StudentID e = student_id
                             ∧ e_OfferingID e = offering_id) (Enrollment s))
      as Hf by (apply list_elem_of_filter; split; [by simplify_eq|done]).
    rewrite Hnil in Hf. by apply not_elem_of_nil in Hf.
  - intros Hnot. apply filter_none.
    intros e Hin [<- <-]. apply Hnot, list_elem_of_fmap. eauto.
Qed.

(** After the two checks of [enroll_student] the insert meets the
    uniqueness constraint and the foreign key to the offering; only the
    foreign key to the student is left to the store. *)
Lemma insert_query_checked student_id offering_id s co :
  offering offering_id s = Some co →
  enrollments_of student_id offering_id s = [] →
  insert_query student_id offering_id s =
  if decide (student_id ∈ s_StudentID <$> Student s)
  then
    let id := next_rowid (e_EnrollmentID <$> Enrollment s) in
    inr (mkStore (Student s) (Program s) (Course s)
           (increment_enrollment offering_id <$> CourseOffering s)
           (Enrollment s ++
              [mkEnrollment id student_id offering_id None "Enrolled"]),
         id)
  else inl (IntegrityError "FOREIGN KEY constraint failed").
Proof.
  intros [Hco Hid]%offering_elem_of Hnone%enrollments_of_nil.
  unfold insert_query, enrollment_constraints; simpl.
  rewrite decide_False by done.
  assert (offering_id ∈ co_OfferingID <$> CourseOffering s)
    by (apply list_elem_of_fmap; eauto).
  destruct (decide (student_id ∈ _)).
  - by rewrite decide_True.
  - rewrite decide_False; [done|tauto].
Qed.

(** [enroll_student] as one case analysis on what it reads. *)
Lemma enroll_student_run student_id offering_id c :
  enroll_student student_id offering_id c =
  let failed rc msg :=
    (mkConn (committed c) None (lastrowid c) rc,
     inl (Exception ("Enrollment failed: " +:+ msg))) in
  match txn c with
  | Some _ => failed (-1) "cannot start a transaction within a transaction"
  | None =>
      match offering offering_id (committed c) with
      | None => failed (-1) "Course offering not found"
      | Some co =>
          if decide (co_CurrentEnrollment co >= co_MaxStudents co)
          then failed (-1) "Course offering is full"
          else
            match enrollments_of student_id offering_id (committed c) with
            | _ :: _ => failed (-1) "Student is already enrolled in this course"
            | [] =>
                if decide (student_id ∈ s_StudentID <$> Student (committed c))
                then
                  let id := next_rowid
                              (e_EnrollmentID <$> Enrollment (committed c)) in
                  (mkConn
                     (mkStore (Student (committed c)) (Program (committed c))
                        (Course (committed c))
                        (increment_enrollment offering_id <$>
                           CourseOffering (committed c))
                        (Enrollment (committed c) ++
                           [mkEnrollment id student_id offering_id None
                              "Enrolled"]))
                     None (Some id) 1,
                   inr (Some id))
                else failed (-1) "FOREIGN KEY constraint failed"
            end
      end
  end.
Proof.
  unfold enroll_student. run.
  destruct (txn c) eqn:Ht; simpl; [done|].
  rewrite fetchone_check_query.
  destruct (offering offering_id (committed c)) as [co|] eqn:Ho; simpl; [|done].
  destruct (decide (_ >= _)); simpl; [done|].
  rewrite fetchone_duplicate_check.
  destruct (enrollments_of _ _ _) eqn:Hd; simpl; [|done].
  rewrite (insert_query_checked _ _ _ co) by done.
  by destruct (decide (student_id ∈ _)).
Qed.

Lemma offering_increment offering_id (l : list OfferingRow) :
  head (filter (λ co, co_OfferingID co = offering_id)
          (increment_enrollment offering_id <$> l)) =
  increment_enrollment offering_id <$>
    head (filter (λ co, co_OfferingID co = offering_id) l).
Proof.
  induction l as [|co l IH]; [done|]. rewrite fmap_cons.
  destruct (decide (co_OfferingID co = offering_id)) as [Heq|Hne].
  - rewrite !filter_cons_True; [done..|].
    unfold increment_enrollment. by rewrite decide_True.
  - rewrite !filter_cons_False; [done..|].
    unfold increment_enrollment. by rewrite decide_False.
Qed.

(** ** Enroll *)

(** C1. Whatever the arguments and the connection, [enroll_student] either
    returns or raises, and:
    - when it returns, the committed Enrollment table is the old one with
      exactly one row appended, for this student and offering, with Status
      'Enrolled' and no Grade; the row's identifier is new, and it is the
      value returned; the offering's CurrentEnrollment is one more than it
      was and no other table changed;
    - when it raises, the committed store is the one before the call and no
      transaction is left open: from a connection without an open
      transaction, neither a row nor a counter increment remains. *)
Theorem enroll_student_all_or_nothing (student_id offering_id : Z) (c : Conn) :
  match enroll_student student_id offering_id c with
  | (c', inr result) =>
      ∃ id co,
        result = Some id ∧
        (id ∉ e_EnrollmentID <$> Enrollment (committed c)) ∧
        Enrollment (committed c') =
          (Enrollment (committed c) ++
             [mkEnrollment id student_id offering_id None "Enrolled"])%list ∧
        offering offering_id (committed c) = Some co ∧
        offering offering_id (committed c') =
          Some (mkOffering (co_OfferingID co) (co_CourseID co)
                  (co_Semester co) (co_Year co) (co_MaxStudents co)
                  (co_CurrentEnrollment co + 1)) ∧
        CourseOffering (committed c') =
          increment_enrollment offering_id <$> CourseOffering (committed c) ∧
        Student (committed c') = Student (committed c) ∧
        Program (committed c') = Program (committed c) ∧
        Course (committed c') = Course (committed c) ∧
        txn c = None ∧ txn c' = None
  | (c', inl e) =>
      committed c' = committed c ∧ txn c' = None ∧
      (txn c = None → view c' = view c)
  end.
Proof.
  rewrite enroll_student_run; simpl.
  assert (∀ rc, txn c = None →
            view (mkConn (committed c) None (lastrowid c) rc) = view c)
    as Hview by (intros rc Hnone; unfold view; by rewrite Hnone).
  destruct (txn c) eqn:Ht; [done|].
  destruct (offering offering_id (committed c)) as [co|] eqn:Ho; [|by auto].
  destruct (decide (_ >= _)); [by auto|].
  destruct (enrollments_of _ _ _); [|by auto].
  destruct (decide (student_id ∈ _)); [|by auto].
  eexists _, co; simpl. split_and!; try done.
  - apply next_rowid_fresh.
  - destruct (offering_elem_of _ _ _ Ho) as [_ Hid].
    unfold offering in *; simpl. rewrite offering_increment, Ho. simpl.
    unfold increment_enrollment. by rewrite decide_True.
Qed.

(** C2. On a connection without an open transaction, enrolling into an
    existing offering whose CurrentEnrollment is at least MaxStudents raises
    "Course offering is full" (the spec's CapacityExceededError) and leaves
    the store as it was. *)
Theorem enroll_student_full (student_id offering_id : Z) (c : Conn)
    (co : OfferingRow) :
  txn c = None →
  offering offering_id (committed c) = Some co →
  co_CurrentEnrollment co >= co_MaxStudents co →
  ∃ c', enroll_student student_id offering_id c =
          (c', inl (Exception "Enrollment failed: Course offering is full"))
        ∧ committed c' = committed c ∧ txn c' = txn c.
Proof.
  intros Ht Ho Hfull. rewrite enroll_student_run; simpl.
  rewrite Ht, Ho, decide_True by done. eauto.
Qed.

Lemma enroll_student_full_witness :
  ∃ c', enroll_student 2 2 (connect full_store) =
          (c', inl (Exception "Enrollment failed: Course offering is full"))
        ∧ committed c' = full_store ∧ txn c' = None.
Proof.
  apply (enroll_student_full 2 2 (connect full_store)
           (mkOffering 2 2 "Spring" 2024 1 1)).
  - reflexivity.
  - reflexivity.
  - simpl. lia.
Defined.

(** C3, as stated, fails when the first call takes the last seat: student 1
    enrolls into offering 2 of [sample_store] (one seat, none taken); the
    second call stops at the capacity check, which comes first, and raises
    "Course offering is full". *)
Lemma enroll_twice_last_seat :
  ¬ enroll_twice_claim (connect sample_store) 1 2.
Proof.
  intros Hclaim.
  destruct Hclaim as (c1 & r1 & c2 & H1 & H2 & _).
  - reflexivity.
  - vm_compute. apply list_elem_of_In. left. reflexivity.
  - eexists. split; [reflexivity|]. simpl. lia.
  - vm_compute in H1. injection H1 as <- <-.
    vm_compute in H2. discriminate H2.
Qed.

(** C3, amended. On a connection without an open transaction, for an
    existing student and an offering with a free seat in which the student
    has no enrollment yet, two successive calls with the same pair behave
    as: the first returns the new identifier; the second raises, "Student is
    already enrolled in this course" when a seat is still free after the
    first call, and "Course offering is full" when the first call took the
    last seat; exactly one row of the pair exists afterwards, the one the
    first call inserted. *)
Theorem enroll_student_twice (student_id offering_id : Z) (c : Conn)
    (co : OfferingRow) :
  txn c = None →
  student_id ∈ s_StudentID <$> Student (committed c) →
  offering offering_id (committed c) = Some co →
  co_CurrentEnrollment co < co_MaxStudents co →
  enrollments_of student_id offering_id (committed c) = [] →
  ∃ c1 id c2,
    enroll_student student_id offering_id c = (c1, inr (Some id)) ∧
    enroll_student student_id offering_id c1 =
      (c2, inl (Exception
         (if decide (co_CurrentEnrollment co + 1 < co_MaxStudents co)
          then "Enrollment failed: Student is already enrolled in this course"
          else "Enrollment failed: Course offering is full"))) ∧
    committed c2 = committed c1 ∧
    enrollments_of student_id offering_id (committed c2) =
      [mkEnrollment id student_id offering_id None "Enrolled"].
Proof.
  intros Ht Hst Ho Hfree Hnone.
  destruct (offering_elem_of _ _ _ Ho) as [_ Hid].
  rewrite enroll_student_run; simpl.
  rewrite Ht, Ho, decide_False, Hnone, decide_True by (done || lia).
  eexists _, _, _. split; [reflexivity|].
  rewrite enroll_student_run; simpl.
  unfold offering at 1; simpl. rewrite offering_increment.
  fold (offering offering_id (committed c)). rewrite Ho; simpl.
  assert (increment_enrollment offering_id co =
          mkOffering (co_OfferingID co) (co_CourseID co) (co_Semester co)
            (co_Year co) (co_MaxStudents co) (co_CurrentEnrollment co + 1))
    as -> by (unfold increment_enrollment; by rewrite decide_True).
  simpl.
  assert (enrollments_of student_id offering_id
            (mkStore (Student (committed c)) (Program (committed c))
               (Course (committed c))
               (increment_enrollment offering_id <$> CourseOffering (committed c))
               (Enrollment (committed c) ++
                  [mkEnrollment
                     (next_rowid (e_EnrollmentID <$> Enrollment (committed c)))
                     student_id offering_id None "Enrolled"])) =
          [mkEnrollment
             (next_rowid (e_EnrollmentID <$> Enrollment (committed c)))
             student_id offering_id None "Enrolled"]) as Hone.
  { unfold enrollments_of in *; simpl. rewrite filter_app, Hnone; simpl.
    by rewrite filter_cons_True. }
  destruct (decide (co_CurrentEnrollment co + 1 >= co_MaxStudents co)),
    (decide (co_CurrentEnrollment co + 1 < co_MaxStudents co));
    try lia; simpl.
  - by split_and!.
  - rewrite Hone. by split_and!.
Qed.

Lemma enroll_student_twice_witness :
  ∃ c1 id c2,
    enroll_student 1 1 (connect sample_store) = (c1, inr (Some id)) ∧
    enroll_student 1 1 c1 =
      (c2, inl (Exception
         "Enrollment failed: Student is already enrolled in this course")) ∧
    committed c2 = committed c1 ∧
    enrollments_of 1 1 (committed c2) = [mkEnrollment id 1 1 None "Enrolled"].
Proof.
  apply (enroll_student_twice 1 1 (connect sample_store)
           (mkOffering 1 1 "Spring" 2024 2 0)).
  - reflexivity.
  - vm_compute. apply list_elem_of_In. left. reflexivity.
  - reflexivity.
  - simpl. lia.
  - reflexivity.
Defined.

(** ** UpdateGrade and Withdraw *)

Lemma rowcount_zero {A} (P : A → Prop) `{!∀ x, Decision (P x)} (l : list A) :
  Z.of_nat (length (filter P l)) = 0 ↔ ∀ x, x ∈ l → ¬ P x.
Proof.
  split.
  - intros Hlen x Hin HP.
    assert (x ∈ filter P l) as Hf by (by apply list_elem_of_filter).
    destruct (filter P l); [by apply not_elem_of_nil in Hf|]. simpl in Hlen. lia.
  - intros Hl. by rewrite (filter_none P l Hl).
Qed.

(** [update_grade] as one case analysis on what it reads. *)
Lemma update_grade_run enrollment_id grade c :
  update_grade enrollment_id grade c =
  if decide (grade ∉ valid_grades)
  then (mkConn (committed c) None (lastrowid c) (rowcount c),
        inl (Exception "Grade update failed: Invalid grade. Must be one of: A, B, C, D, F, P, W"))
  else if decide (enrollment_id ∈ e_EnrollmentID <$> Enrollment (view c))
  then (mkConn (grade_query grade enrollment_id (view c)).1 None (lastrowid c)
          (grade_query grade enrollment_id (view c)).2,
        inr true)
  else (mkConn (committed c) None (lastrowid c) 0,
        inl (Exception "Grade update failed: Enrollment not found")).
Proof.
  unfold update_grade. run.
  destruct (decide (grade ∉ valid_grades)); simpl; [done|].
  set (cnt := Z.of_nat (length (filter _ (Enrollment _)))).
  assert (cnt = 0 ↔ enrollment_id ∉ e_EnrollmentID <$> Enrollment (default (committed c) (txn c)))
    as Hn.
  { unfold cnt. rewrite rowcount_zero. split.
    - intros Hno (e & -> & Hin)%list_elem_of_fmap. by apply (Hno e).
    - intros Hno e Hin <-. apply Hno, list_elem_of_fmap. eauto. }
  destruct (decide (cnt = 0)) as [H0|H0], (decide (enrollment_id ∈ _)) as [Hin|Hin];
    simpl; try tauto.
  by rewrite H0.
Qed.

(** [withdraw_from_course] as one case analysis on what it reads. *)
Lemma withdraw_from_course_run enrollment_id c :
  withdraw_from_course enrollment_id c =
  match txn c with
  | Some _ =>
      (mkConn (committed c) None (lastrowid c) (-1),
       inl (Exception
         "Withdrawal failed: cannot start a transaction within a transaction"))
  | None =>
      if decide (Exists (λ e, e_EnrollmentID e = enrollment_id
                              ∧ e_Status e = "Enrolled")
                   (Enrollment (committed c)))
      then (mkConn (update_query enrollment_id (committed c)).1 None
              (lastrowid c) (update_query enrollment_id (committed c)).2,
            inr true)
      else (mkConn (committed c) None (lastrowid c) 0,
            inl (Exception
              "Withdrawal failed: Enrollment not found or already completed"))
  end.
Proof.
  unfold withdraw_from_course. run.
  destruct (txn c) eqn:Ht; simpl; [done|].
  set (cnt := Z.of_nat (length (filter _ (Enrollment _)))).
  assert (cnt = 0 ↔ ¬ Exists (λ e, e_EnrollmentID e = enrollment_id
                                  ∧ e_Status e = "Enrolled")
                      (Enrollment (committed c))) as Hn.
  { unfold cnt. rewrite rowcount_zero, Exists_exists. split.
    - intros Hno (e & Hin & He). by apply (Hno e).
    - intros Hno e Hin He. apply Hno. eauto. }
  destruct (decide (cnt = 0)) as [H0|H0], (decide (Exists _ _)) as [Hin|Hin];
    simpl; try tauto.
  by rewrite H0.
Qed.

(** C4. A grade outside A, B, C, D, F, P, W makes [update_grade] raise
    "Invalid grade ..." (the spec's InvalidGradeError) whatever the
    identifier, before any statement reaches the store: the committed store
    is untouched, and a connection without an open transaction comes back
    exactly as it was, cursor included. *)
Theorem update_grade_invalid (enrollment_id : Z) (grade : string) (c : Conn) :
  grade ∉ valid_grades →
  ∃ c',
    update_grade enrollment_id grade c =
      (c', inl (Exception "Grade update failed: Invalid grade. Must be one of: A, B, C, D, F, P, W")) ∧
    committed c' = committed c ∧ txn c' = None ∧
    (txn c = None → c' = c).
Proof.
  intros Hbad. rewrite update_grade_run, decide_True by done.
  eexists. split_and!; try done.
  destruct c as [s t l r]; simpl. by intros ->.
Qed.

Lemma update_grade_invalid_witness :
  ∃ c',
    update_grade 1 "Z" (connect full_store) =
      (c', inl (Exception "Grade update failed: Invalid grade. Must be one of: A, B, C, D, F, P, W")) ∧
    committed c' = full_store ∧ txn c' = None ∧
    (txn (connect full_store) = None → c' = connect full_store).
Proof.
  apply (update_grade_invalid 1 "Z" (connect full_store)).
  vm_compute. intros H%list_elem_of_In. simpl in H. intuition discriminate.
Defined.

(** C5. On a connection without an open transaction, [withdraw_from_course]
    - returns when some row has the identifier and Status 'Enrolled', and
      then exactly those rows get Status 'Withdrawn' and Grade 'W', every
      other row staying as it was;
    - raises "Enrollment not found or already completed" (the spec's
      NotFoundError) when no row matches, be it that no row has the
      identifier or that the row's Status is not 'Enrolled'; the error is
      the same in both cases and the store is left as it was. *)
Theorem withdraw_from_course_enrolled_only (enrollment_id : Z) (c : Conn) :
  txn c = None →
  ((∃ e, e ∈ Enrollment (committed c)
         ∧ e_EnrollmentID e = enrollment_id ∧ e_Status e = "Enrolled") →
   ∃ c',
     withdraw_from_course enrollment_id c = (c', inr true) ∧
     Enrollment (committed c') =
       (λ e, if decide (e_EnrollmentID e = enrollment_id
                        ∧ e_Status e = "Enrolled")
             then mkEnrollment (e_EnrollmentID e) (e_StudentID e)
                    (e_OfferingID e) (Some "W") "Withdrawn"
             else e) <$> Enrollment (committed c) ∧
     txn c' = None) ∧
  ((∀ e, e ∈ Enrollment (committed c) →
         e_EnrollmentID e = enrollment_id → e_Status e ≠ "Enrolled") →
   ∃ c',
     withdraw_from_course enrollment_id c =
       (c', inl (Exception
          "Withdrawal failed: Enrollment not found or already completed")) ∧
     committed c' = committed c ∧ txn c' = None).
Proof.
  intros Ht. rewrite withdraw_from_course_run, Ht. split.
  - intros (e & Hin & Hid & Hst).
    rewrite decide_True by (apply Exists_exists; eauto).
    eexists. split_and!; done.
  - intros Hno.
    rewrite decide_False.
    + eexists. split_and!; done.
    + intros (e & Hin & Hid & Hst)%Exists_exists. by apply (Hno e).
Qed.

Lemma withdraw_from_course_enrolled_only_witness :
  (∃ c',
     withdraw_from_course 7 (connect graded_store) = (c', inr true) ∧
     Enrollment (committed c') =
       [mkEnrollment 1 1 1 (Some "A") "Completed";
        mkEnrollment 2 1 2 (Some "B") "Completed";
        mkEnrollment 3 1 3 (Some "B") "Completed";
        mkEnrollment 4 2 1 (Some "F") "Completed";
        mkEnrollment 5 2 2 (Some "W") "Withdrawn";
        mkEnrollment 6 2 3 (Some "D") "Completed";
        mkEnrollment 7 3 1 (Some "W") "Withdrawn";
        mkEnrollment 8 4 3 (Some "F") "Completed"] ∧
     txn c' = None) ∧
  (∃ c',
     withdraw_from_course 1 (connect graded_store) =
       (c', inl (Exception
          "Withdrawal failed: Enrollment not found or already completed")) ∧
     committed c' = graded_store ∧ txn c' = None) ∧
  (∃ c',
     withdraw_from_course 99 (connect graded_store) =
       (c', inl (Exception
          "Withdrawal failed: Enrollment not found or already completed")) ∧
     committed c' = graded_store ∧ txn c' = None).
Proof.
  split_and!.
  - apply (withdraw_from_course_enrolled_only 7 (connect graded_store));
      [reflexivity|].
    exists (mkEnrollment 7 3 1 None "Enrolled"). split_and!; [|done..].
    apply list_elem_of_In. simpl. tauto.
  - apply (withdraw_from_course_enrolled_only 1 (connect graded_store));
      [reflexivity|].
    intros e Hin%list_elem_of_In Hid. simpl in Hin.
    intuition (subst; simpl in *; discriminate).
  - apply (withdraw_from_course_enrolled_only 99 (connect graded_store));
      [reflexivity|].
    intros e Hin%list_elem_of_In Hid. simpl in Hin.
    intuition (subst; simpl in *; discriminate).
Defined.

(** C6. When [withdraw_from_course] returns, the committed CourseOffering
    table is the one before the call, CurrentEnrollment included, and so are
    Student, Program and Course; in Enrollment every row keeps its
    identifier, student and offering, and a row that did not match keeps
    its Grade and Status too.  (The statement is an UPDATE of Enrollment;
    the store is modelled with no trigger on that update, as the
    specification describes it.) *)
Theorem withdraw_from_course_frame (enrollment_id : Z) (c c' : Conn) (r : bool) :
  withdraw_from_course enrollment_id c = (c', inr r) →
  CourseOffering (committed c') = CourseOffering (committed c) ∧
  Student (committed c') = Student (committed c) ∧
  Program (committed c') = Program (committed c) ∧
  Course (committed c') = Course (committed c) ∧
  Forall2 (λ e e',
             e_EnrollmentID e' = e_EnrollmentID e ∧
             e_StudentID e' = e_StudentID e ∧
             e_OfferingID e' = e_OfferingID e ∧
             (e' = e ∨
              e_EnrollmentID e = enrollment_id ∧ e_Status e = "Enrolled" ∧
              e_Status e' = "Withdrawn" ∧ e_Grade e' = Some "W"))
          (Enrollment (committed c)) (Enrollment (committed c')).
Proof.
  rewrite withdraw_from_course_run.
  destruct (txn c); [discriminate|].
  destruct (decide (Exists _ _)); [|discriminate].
  intros [= <- <-]; simpl. split_and!; try done.
  apply Forall2_fmap_r, Forall_Forall2_diag, Forall_forall.
  intros row _. simpl. case_decide as Hhit; simpl; [|auto].
  destruct Hhit. auto 10.
Qed.

Lemma withdraw_from_course_frame_witness :
  let c' := (withdraw_from_course 7 (connect graded_store)).1 in
  CourseOffering (committed c') = CourseOffering graded_store ∧
  co_CurrentEnrollment <$> CourseOffering (committed c') = [3; 2; 3].
Proof.
  intros c'.
  destruct (withdraw_from_course_frame 7 (connect graded_store) c' true)
    as (Hco & _).
  - reflexivity.
  - split; [exact Hco|]. rewrite Hco. reflexivity.
Defined.

(** C7. For a grade among A, B, C, D, F, P, W, [update_grade] looks at the
    identifier only:
    - when a row has it, the call returns, that row gets the grade and
      Status 'Completed' whatever its Status and Grade were (a Completed or
      Withdrawn row is graded again), and every other row and table stays
      as it was;
    - when no row has it, the call raises "Enrollment not found" (the
      spec's NotFoundError) and the committed store is left as it was;
    so the call raises that error exactly when no row has the identifier.
    The rows read are those the connection sees ([view]): the committed
    ones when no transaction is open. *)
Theorem update_grade_overwrites (enrollment_id : Z) (grade : string) (c : Conn) :
  grade ∈ valid_grades →
  (enrollment_id ∈ e_EnrollmentID <$> Enrollment (view c) →
   ∃ c',
     update_grade enrollment_id grade c = (c', inr true) ∧
     Enrollment (committed c') =
       (λ e, if decide (e_EnrollmentID e = enrollment_id)
             then mkEnrollment (e_EnrollmentID e) (e_StudentID e)
                    (e_OfferingID e) (Some grade) "Completed"
             else e) <$> Enrollment (view c) ∧
     CourseOffering (committed c') = CourseOffering (view c) ∧
     Student (committed c') = Student (view c) ∧
     Program (committed c') = Program (view c) ∧
     Course (committed c') = Course (view c) ∧
     txn c' = None) ∧
  (enrollment_id ∉ e_EnrollmentID <$> Enrollment (view c) →
   ∃ c',
     update_grade enrollment_id grade c =
       (c', inl (Exception "Grade update failed: Enrollment not found")) ∧
     committed c' = committed c ∧ txn c' = None) ∧
  ((∃ c', update_grade enrollment_id grade c =
            (c', inl (Exception "Grade update failed: Enrollment not found")))
   ↔ enrollment_id ∉ e_EnrollmentID <$> Enrollment (view c)).
Proof.
  intros Hok. rewrite update_grade_run.
  rewrite decide_False by (intros Hbad; by apply Hbad).
  destruct (decide (enrollment_id ∈ _)) as [Hin|Hin]; split_and!.
  - intros _. eexists. by split_and!.
  - done.
  - split; [|done]. by intros (c' & [=]).
  - done.
  - intros _. eexists. by split_and!.
  - split; [done|]. intros _. by eexists.
Qed.

Lemma update_grade_overwrites_witness :
  (∃ c',
     update_grade 5 "P" (connect graded_store) = (c', inr true) ∧
     Enrollment (committed c') =
       [mkEnrollment 1 1 1 (Some "A") "Completed";
        mkEnrollment 2 1 2 (Some "B") "Completed";
        mkEnrollment 3 1 3 (Some "B") "Completed";
        mkEnrollment 4 2 1 (Some "F") "Completed";
        mkEnrollment 5 2 2 (Some "P") "Completed";
        mkEnrollment 6 2 3 (Some "D") "Completed";
        mkEnrollment 7 3 1 None "Enrolled";
        mkEnrollment 8 4 3 (Some "F") "Completed"] ∧
     CourseOffering (committed c') = CourseOffering graded_store) ∧
  (∃ c',
     update_grade 99 "A" (connect graded_store) =
       (c', inl (Exception "Grade update failed: Enrollment not found")) ∧
     committed c' = graded_store ∧ txn c' = None).
Proof.
  split.
  - destruct (update_grade_overwrites 5 "P" (connect graded_store))
      as (Hyes & _ & _).
    + apply list_elem_of_In. simpl. tauto.
    + destruct Hyes as (c' & Hrun & Hrows & Hco & _).
      * apply list_elem_of_In. simpl. tauto.
      * exists c'. split_and!; [exact Hrun|exact Hrows|exact Hco].
  - destruct (update_grade_overwrites 99 "A" (connect graded_store))
      as (_ & Hno & _).
    + apply list_elem_of_In. simpl. tauto.
    + apply Hno. intros Hin%list_elem_of_In. simpl in Hin.
      intuition discriminate.
Defined.

(** ** SemesterEnrollmentReport *)

(** C10. On [term_store] the report for Spring 2024 counts 2 offerings, 2
    students and 2 enrollment rows, but its [SUM]s run over the rows of the
    LEFT JOIN, in which offering 1 occurs once for each of its two
    enrollments: TotalCapacity is 30 + 30 + 10 = 70 and TotalEnrolled is
    2 + 2 + 0 = 4 with fill rate 5.7, whereas MaxStudents sums to 40 and
    CurrentEnrollment to 2 over the two offerings of the term (fill rate
    5.0). *)
Theorem semester_enrollment_report_repeats_offerings :
  (semester_enrollment_report "Spring" 2024 (connect term_store)).2 =
    inr (Some (mkSemesterRow 2 2 2 (Some 70) (Some 4) (Some (57 # 10)))) ∧
  foldr Z.add 0 (co_MaxStudents <$> term_offerings "Spring" 2024 term_store)
    = 40 ∧
  foldr Z.add 0 (co_CurrentEnrollment <$>
                   term_offerings "Spring" 2024 term_store) = 2 ∧
  round_to 1 ((2 # 40) * (100 # 1))%Q = (5 # 1)%Q.
Proof. by vm_compute. Qed.

(** ** Keys of the schema *)

Section keys.
Context {A : Type} (f : A → Z).

Lemma filter_key (l : list A) (x : A) :
  NoDup (f <$> l) → x ∈ l → filter (λ y, f y = f x) l = [x].
Proof.
  induction l as [|a l IH]; intros Hnd Hin; [by apply not_elem_of_nil in Hin|].
  rewrite fmap_cons in Hnd. apply NoDup_cons in Hnd as [Hfa Hnd].
  apply elem_of_cons in Hin as [->|Hin].
  - rewrite filter_cons_True by done. f_equal.
    apply filter_none. intros y Hy Heq. apply Hfa.
    rewrite <- Heq. by apply list_elem_of_fmap_2.
  - rewrite filter_cons_False; [by apply IH|].
    intros Heq. apply Hfa. rewrite Heq. by apply list_elem_of_fmap_2.
Qed.

Lemma filter_key_l (l : list A) (k : Z) (x : A) :
  NoDup (f <$> l) → x ∈ l → f x = k → filter (λ y, f y = k) l = [x].
Proof. intros Hnd Hin <-. by apply filter_key. Qed.

Lemma filter_key_r (l : list A) (k : Z) (x : A) :
  NoDup (f <$> l) → x ∈ l → f x = k → filter (λ y, k = f y) l = [x].
Proof.
  intros Hnd Hin Hk. rewrite <- (filter_key_l l k x Hnd Hin Hk).
  apply list_filter_iff. intros y. split; congruence.
Qed.

Lemma key_lookup (l : list A) (k : Z) :
  k ∈ f <$> l → ∃ x, x ∈ l ∧ f x = k.
Proof. intros (x & -> & Hin)%list_elem_of_fmap. eauto. Qed.
End keys.

(** The three mutations keep the keys: the stores the aggregates run on
    stay within [integrity]. *)

Lemma increment_enrollment_keys offering_id (l : list OfferingRow) :
  co_OfferingID <$> (increment_enrollment offering_id <$> l) = co_OfferingID <$> l
  ∧ Forall2 (λ co co', co_CourseID co' = co_CourseID co)
      l (increment_enrollment offering_id <$> l).
Proof.
  split.
  - rewrite <- list_fmap_compose. apply list_fmap_ext. intros ? co ?. simpl.
    unfold increment_enrollment. by case_decide.
  - apply Forall2_fmap_r, Forall_Forall2_diag. rewrite Forall_forall.
    intros co _. simpl. unfold increment_enrollment. by case_decide.
Qed.

Lemma enroll_student_integrity student_id offering_id c :
  integrity (committed c) →
  integrity (committed (enroll_student student_id offering_id c).1).
Proof.
  intros Hint. rewrite enroll_student_run; simpl.
  destruct (txn c); [done|].
  destruct (offering offering_id (committed c)) as [co|] eqn:Ho; [|done].
  destruct (decide (_ >= _)); [done|].
  destruct (enrollments_of _ _ _); [|done].
  destruct (decide (student_id ∈ _)); [|done]. simpl.
  destruct Hint as (Hs & Hp & Hc & Hco & Hfs & Hfc & Hfe).
  destruct (increment_enrollment_keys offering_id (CourseOffering (committed c)))
    as [Hids Hcourses].
  unfold integrity; simpl. rewrite Hids. split_and!; try done.
  - rewrite Forall_forall in Hfc. apply Forall_forall.
    intros co' Hin'.
    destruct (proj1 (list_elem_of_lookup _ _) Hin') as [i Hi].
    destruct (Forall2_lookup_r _ _ _ _ _ Hcourses Hi) as (co0 & Hi0 & ->).
    apply Hfc. by eapply list_elem_of_lookup_2.
  - apply Forall_app. split; [done|]. apply Forall_singleton; simpl.
    destruct (offering_elem_of _ _ _ Ho) as [Hin <-].
    by apply list_elem_of_fmap_2.
Qed.

Lemma update_keeps_integrity (f : EnrollmentRow → EnrollmentRow) s :
  (∀ e, e_OfferingID (f e) = e_OfferingID e) →
  integrity s →
  integrity (mkStore (Student s) (Program s) (Course s) (CourseOffering s)
               (f <$> Enrollment s)).
Proof.
  intros Hf (Hs & Hp & Hc & Hco & Hfs & Hfc & Hfe).
  unfold integrity; simpl. split_and!; try done.
  apply Forall_fmap. eapply Forall_impl; [exact Hfe|].
  intros e He. simpl. by rewrite Hf.
Qed.

Lemma update_grade_integrity enrollment_id grade c :
  integrity (committed c) → integrity (view c) →
  integrity (committed (update_grade enrollment_id grade c).1).
Proof.
  intros Hc Hv. rewrite update_grade_run.
  destruct (decide (grade ∉ valid_grades)); [done|].
  destruct (decide (enrollment_id ∈ _)); [|done]. simpl.
  apply update_keeps_integrity; [|done]. intros row. by case_decide.
Qed.

Lemma withdraw_from_course_integrity enrollment_id c :
  integrity (committed c) →
  integrity (committed (withdraw_from_course enrollment_id c).1).
Proof.
  intros Hc. rewrite withdraw_from_course_run.
  destruct (txn c); [done|].
  destruct (decide (Exists _ _)); [|done]. simpl.
  apply update_keeps_integrity; [|done]. intros row. by case_decide.
Qed.

(** ** GPA *)

Lemma not_null_some {A B} (f : A → B) (l : list A) :
  not_null ((λ x, Some (f x)) <$> l) = f <$> l.
Proof. unfold not_null. induction l; simpl; [done|]. by f_equal. Qed.

Lemma not_null_fmap {A B} (f : A → option B) (l : list A) :
  not_null (f <$> l) = omap f l.
Proof.
  unfold not_null. induction l as [|a l IH]; simpl; [done|].
  destruct (f a); simpl; [f_equal|]; exact IH.
Qed.

Lemma COUNT_some {A B} (f : A → B) (l : list A) :
  COUNT ((λ x, Some (f x)) <$> l) = Z.of_nat (length l).
Proof. unfold COUNT. by rewrite not_null_some, length_fmap. Qed.

Lemma SUM_some {A} (f : A → Z) (l : list A) :
  SUM ((λ x, Some (f x)) <$> l) =
  match l with [] => None | _ => Some (foldr Z.add 0 (f <$> l)) end.
Proof. unfold SUM. rewrite not_null_some. by destruct l. Qed.

(** Under the keys of the schema an enrollment joins with exactly one
    offering and one course. *)
Lemma gpa_join s e :
  integrity s → e ∈ Enrollment s →
  ∃ co c,
    course_of s e = Some c ∧
    (co ← filter (λ co, e_OfferingID e = co_OfferingID co) (CourseOffering s);
     c ← filter (λ c, co_CourseID co = c_CourseID c) (Course s);
     [(e, co, c)]) = [(e, co, c)].
Proof.
  intros (_ & _ & Hc & Hco & _ & Hfkc & Hfke) Hin.
  rewrite Forall_forall in Hfkc. rewrite Forall_forall in Hfke.
  destruct (key_lookup co_OfferingID _ _ (Hfke e Hin)) as (co & Hcoin & Hcoid).
  destruct (key_lookup c_CourseID _ _ (Hfkc co Hcoin)) as (c & Hcin & Hcid).
  exists co, c. split.
  - unfold course_of, offering, course.
    rewrite (filter_key_l co_OfferingID _ _ co) by done. simpl.
    by rewrite (filter_key_l c_CourseID _ _ c).
  - rewrite (filter_key_r co_OfferingID _ _ co) by done. simpl.
    rewrite (filter_key_r c_CourseID _ _ c) by done. done.
Qed.

Lemma gpa_from_rows student_id s (l : list EnrollmentRow) :
  integrity s → (∀ e, e ∈ l → e ∈ Enrollment s) →
  Forall2 (λ e r, r.1.1 = e ∧ course_of s e = Some r.2)
    (filter (λ e, e_StudentID e = student_id ∧ e_Grade e ≠ None) l)
    (filter (λ r : EnrollmentRow * OfferingRow * CourseRow,
               e_StudentID r.1.1 = student_id ∧ e_Grade r.1.1 ≠ None)
       (e ← l;
        co ← filter (λ co, e_OfferingID e = co_OfferingID co) (CourseOffering s);
        c ← filter (λ c, co_CourseID co = c_CourseID c) (Course s);
        [(e, co, c)])).
Proof.
  intros Hint. induction l as [|e l IH]; intros Hl; [constructor|].
  rewrite bind_cons, filter_app.
  destruct (gpa_join s e Hint) as (co & c & Hcourse & ->); [apply Hl; left|].
  specialize (IH (λ x Hx, Hl x (list_elem_of_further _ _ _ Hx))).
  destruct (decide (e_StudentID e = student_id ∧ e_Grade e ≠ None)) as [He|He].
  - rewrite filter_cons_True by done.
    rewrite (filter_cons_True _ (e, co, c)) by done. simpl.
    by constructor.
  - rewrite filter_cons_False by done.
    by rewrite (filter_cons_False _ (e, co, c)) by done.
Qed.

Lemma calculate_gpa_run student_id c :
  calculate_gpa student_id c =
  (mkConn (committed c) (txn c) (lastrowid c) (-1),
   inr (fetchone (gpa_query student_id (view c)))).
Proof. reflexivity. Qed.

(** The [CASE] of the queries computes the specification's mapping. *)
Lemma GradePoints_mapped (grade : option string) :
  GradePoints grade = mapped_points grade.
Proof.
  unfold GradePoints, mapped_points, grade_point_mapping.
  destruct grade as [g|]; [|done]. simpl.
  repeat (destruct (decide (Some g = _)) as [[= ->]|?]; [reflexivity|]).
  rewrite filter_none; [done|].
  intros [k v] Hin%list_elem_of_In Hk. simpl in *.
  repeat (destruct Hin as [[= <- <-]|Hin]; [congruence|]). done.
Qed.

(** C8. On a store whose keys hold, [calculate_gpa] returns one row, built
    from the student's enrollments that have a grade (in the view of the
    connection):
    - CoursesCompleted is their number;
    - TotalCredits is the sum of the credits of their courses, and [NULL]
      when there is none;
    - GPA is the unweighted average of their grade points by the mapping
      A=4.0, B=3.0, C=2.0, D=1.0, F=0.0, rounded to two decimals; an
      enrollment with any other grade (P, W) has no points and is left out
      of the sum and of the number divided by, not counted as zero; GPA is
      [NULL], not 0, when no enrollment has points, so in particular for a
      student without graded enrollments.
    The call never raises and leaves the store alone.  REAL values are
    exact rationals here. *)
Theorem calculate_gpa_aggregates (student_id : Z) (c : Conn) :
  integrity (view c) →
  let graded := graded_enrollments student_id (view c) in
  let points : list Q := omap (λ e, mapped_points (e_Grade e)) graded in
  ∃ c' courses,
    Forall2 (λ e crs, course_of (view c) e = Some crs) graded courses ∧
    calculate_gpa student_id c =
      (c', inr (Some (mkGpaRow
         (Z.of_nat (length graded))
         (match graded with
          | [] => None
          | _ => Some (foldr Z.add 0 (c_Credits <$> courses))
          end)
         (match points with
          | [] => None
          | _ => Some (round_to 2 (foldr Qplus 0 points
                                   / inject_Z (Z.of_nat (length points)))%Q)
          end)))) ∧
    committed c' = committed c ∧ txn c' = txn c.
Proof.
  intros Hint graded points.
  pose proof (gpa_from_rows student_id (view c) (Enrollment (view c)) Hint
                (λ e He, He)) as Hrows.
  change (filter _ (Enrollment (view c))) with graded in Hrows.
  rewrite calculate_gpa_run. unfold gpa_query, gpa_from, fetchone; simpl.
  set (rows := filter _ (_ ≫= _)) in *.
  exists (mkConn (committed c) (txn c) (lastrowid c) (-1)),
    ((λ r, r.2) <$> rows).
  split_and!; [| |done|done].
  - apply Forall2_fmap_r. eapply Forall2_impl; [exact Hrows|].
    by intros e r [_ ?].
  - do 4 f_equal.
    + rewrite COUNT_some. f_equal. symmetry. by eapply Forall2_length.
    + rewrite SUM_some, <- list_fmap_compose.
      by destruct Hrows.
    + unfold AVG. rewrite not_null_fmap.
      assert (omap (λ r : EnrollmentRow * OfferingRow * CourseRow,
                      GradePoints (e_Grade r.1.1)) rows = points) as ->.
      { unfold points. symmetry. apply list_omap_ext.
        eapply Forall2_impl; [exact Hrows|].
        intros e r [-> _]. symmetry. apply GradePoints_mapped. }
      by destruct points.
Qed.

Lemma calculate_gpa_aggregates_witness :
  (∃ c' courses,
     Forall2 (λ e crs, course_of graded_store e = Some crs)
       [mkEnrollment 1 1 1 (Some "A") "Completed";
        mkEnrollment 2 1 2 (Some "B") "Completed";
        mkEnrollment 3 1 3 (Some "B") "Completed"] courses ∧
     calculate_gpa 1 (connect graded_store) =
       (c', inr (Some (mkGpaRow 3
          (Some (foldr Z.add 0 (c_Credits <$> courses)))
          (Some (333 # 100))))) ∧
     committed c' = graded_store ∧ txn c' = None) ∧
  (∃ c' courses,
     Forall2 (λ e crs, course_of graded_store e = Some crs)
       [mkEnrollment 4 2 1 (Some "F") "Completed";
        mkEnrollment 5 2 2 (Some "W") "Withdrawn";
        mkEnrollment 6 2 3 (Some "D") "Completed"] courses ∧
     calculate_gpa 2 (connect graded_store) =
       (c', inr (Some (mkGpaRow 3
          (Some (foldr Z.add 0 (c_Credits <$> courses)))
          (Some (1 # 2))))) ∧
     committed c' = graded_store ∧ txn c' = None) ∧
  (∃ c' courses,
     Forall2 (λ e crs, course_of graded_store e = Some crs) [] courses ∧
     calculate_gpa 3 (connect graded_store) =
       (c', inr (Some (mkGpaRow 0 None None))) ∧
     committed c' = graded_store ∧ txn c' = None).
Proof.
  split_and!.
  - apply (calculate_gpa_aggregates 1 (connect graded_store)).
    apply (bool_decide_unpack _). vm_compute. exact I.
  - apply (calculate_gpa_aggregates 2 (connect graded_store)).
    apply (bool_decide_unpack _). vm_compute. exact I.
  - apply (calculate_gpa_aggregates 3 (connect graded_store)).
    apply (bool_decide_unpack _). vm_compute. exact I.
Defined.

(** The results of [calculate_gpa] on [graded_store]: A, B, B give 3.33;
    F, W, D give 0.5, the W counted as a course but not in the average; a
    student without grades gets [NULL], not 0. *)
Example calculate_gpa_1 :
  (calculate_gpa 1 (connect graded_store)).2 =
  inr (Some (mkGpaRow 3 (Some 9) (Some (333 # 100)))).
Proof. by vm_compute. Qed.

Example calculate_gpa_2 :
  (calculate_gpa 2 (connect graded_store)).2 =
  inr (Some (mkGpaRow 3 (Some 9) (Some (1 # 2)))).
Proof. by vm_compute. Qed.

Example calculate_gpa_3 :
  (calculate_gpa 3 (connect graded_store)).2 =
  inr (Some (mkGpaRow 0 None None)).
Proof. by vm_compute. Qed.

(** ** Joins and groups over keyed tables *)

Section joins.
Context {A B : Type}.

Lemma filter_bind (P : B → Prop) `{!∀ x, Decision (P x)}
    (f : A → list B) (l : list A) :
  filter P (l ≫= f) = l ≫= (λ x, filter P (f x)).
Proof.
  induction l as [|a l IH]; [done|].
  by rewrite !bind_cons, filter_app, IH.
Qed.

Lemma bind_nil (f : A → list B) (l : list A) :
  (∀ y, y ∈ l → f y = []) → l ≫= f = [].
Proof.
  induction l as [|a l IH]; intros Hf; [done|].
  rewrite bind_cons, (Hf a), IH; [done| |left].
  intros y Hy. apply Hf. by right.
Qed.

Lemma bind_select (f : A → list B) (l : list A) (x : A) :
  NoDup l → x ∈ l → (∀ y, y ∈ l → y ≠ x → f y = []) → l ≫= f = f x.
Proof.
  induction l as [|a l IH]; intros Hnd Hin Hf;
    [by apply not_elem_of_nil in Hin|].
  apply NoDup_cons in Hnd as [Ha Hnd]. rewrite bind_cons.
  apply elem_of_cons in Hin as [->|Hin].
  - rewrite bind_nil; [by rewrite app_nil_r|].
    intros y Hy. apply Hf; [by right|]. by intros ->.
  - rewrite (Hf a); [|left|by intros ->]. simpl.
    apply IH; [done..|]. intros y Hy. apply Hf. by right.
Qed.

Lemma bind_singleton_fmap (g : A → B) (l : list A) :
  l ≫= (λ x, [g x]) = g <$> l.
Proof. induction l as [|a l IH]; [done|]. by rewrite bind_cons, IH. Qed.

Lemma filter_fmap (P : B → Prop) `{!∀ x, Decision (P x)}
    (g : A → B) (l : list A) :
  filter P (g <$> l) = g <$> filter (λ x, P (g x)) l.
Proof.
  induction l as [|a l IH]; [done|]. rewrite fmap_cons.
  destruct (decide (P (g a))).
  - rewrite !filter_cons_True by done. by rewrite fmap_cons, IH.
  - by rewrite !filter_cons_False.
Qed.

Lemma NoDup_fmap_filter (P : A → Prop) `{!∀ x, Decision (P x)}
    (g : A → B) (l : list A) :
  NoDup (g <$> l) → NoDup (g <$> filter P l).
Proof.
  induction l as [|a l IH]; [done|]. rewrite fmap_cons.
  intros [Ha Hnd]%NoDup_cons.
  destruct (decide (P a)).
  - rewrite filter_cons_True by done. rewrite fmap_cons.
    apply NoDup_cons. split; [|by apply IH].
    intros (y & Hy & [_ Hin]%list_elem_of_filter)%list_elem_of_fmap.
    apply Ha. rewrite Hy. by apply list_elem_of_fmap_2.
  - rewrite filter_cons_False by done. by apply IH.
Qed.

Lemma NoDup_fmap_inj_on (g : A → B) (l : list A) (x y : A) :
  NoDup (g <$> l) → x ∈ l → y ∈ l → g x = g y → x = y.
Proof.
  induction l as [|a l IH]; intros Hnd Hx Hy Heq;
    [by apply not_elem_of_nil in Hx|].
  rewrite fmap_cons in Hnd. apply NoDup_cons in Hnd as [Ha Hnd].
  apply elem_of_cons in Hx as [->|Hx], Hy as [->|Hy]; [done| | |by apply IH].
  - exfalso. apply Ha. rewrite Heq. by apply list_elem_of_fmap_2.
  - exfalso. apply Ha. rewrite <- Heq. by apply list_elem_of_fmap_2.
Qed.
End joins.

(** ** StudentsAtRisk *)

Lemma risk_from_elem s st p e :
  (st, p, e) ∈ risk_from s ↔
  st ∈ Student s ∧ p ∈ Program s ∧ s_ProgramID st = p_ProgramID p ∧
  e ∈ Enrollment s ∧ s_StudentID st = e_StudentID e ∧
  e_Grade e ≠ None ∧ s_Status st = "Active".
Proof.
  unfold risk_from. rewrite list_elem_of_filter; simpl. split.
  - intros [[Hg Ha] (st' & Hin & Hst)%list_elem_of_bind].
    apply list_elem_of_bind in Hin as (p' & Hin & [Hp Hpin]%list_elem_of_filter).
    apply list_elem_of_bind in Hin as (e' & Hin & [He Hein]%list_elem_of_filter).
    apply list_elem_of_singleton in Hin as [= -> -> ->]. by split_and!.
  - intros (Hst & Hp & Hsp & He & Hse & Hg & Ha). split; [done|].
    apply list_elem_of_bind. exists st. split; [|done].
    apply list_elem_of_bind. exists p. split; [|by apply list_elem_of_filter].
    apply list_elem_of_bind. exists e. split; [|by apply list_elem_of_filter].
    by apply list_elem_of_singleton.
Qed.

(** Under the keys of the schema the group of a student holds one row for
    each of the student's graded enrollments. *)
Lemma risk_group s st p :
  integrity s →
  st ∈ Student s → p ∈ Program s → s_ProgramID st = p_ProgramID p →
  s_Status st = "Active" →
  filter (λ r, risk_key r =
               (s_StudentID st, full_name st, s_Email st, p_ProgramName p))
         (risk_from s) =
  (λ e, (st, p, e)) <$> graded_enrollments (s_StudentID st) s.
Proof.
  intros (Hst & Hp & _) Hin Hpin Hsp Hact.
  unfold risk_from. rewrite list_filter_filter, filter_bind.
  rewrite (bind_select _ _ st); [|by eapply NoDup_fmap_1|done|].
  - rewrite (filter_key_r p_ProgramID _ _ p) by done.
    rewrite bind_cons, app_nil_r, bind_singleton_fmap, filter_fmap.
    f_equal. unfold graded_enrollments. rewrite list_filter_filter.
    apply list_filter_iff. intros e. unfold risk_key; simpl.
    split; [intros [[_ [? ?]] ?]|intros [? ?]]; by split_and!.
  - intros st' Hin' Hne. apply filter_none.
    intros [[st'' p''] e''] Hr [[= Hid _ _ _] _].
    apply list_elem_of_bind in Hr as (p' & Hr & _).
    apply list_elem_of_bind in Hr as (e' & Hr & _).
    apply list_elem_of_singleton in Hr as [= -> -> ->].
    apply Hne. by eapply (NoDup_fmap_inj_on s_StudentID).
Qed.

#[global] Instance by_gpa_total : Total by_gpa.
Proof.
  intros r1 r2. unfold by_gpa.
  destruct (risk_GPA r1) as [a|], (risk_GPA r2) as [b|]; simpl; auto.
  destruct (Qlt_le_dec a b); [left; by apply Qlt_le_weak|by right].
Qed.

#[global] Instance by_gpa_trans : Transitive by_gpa.
Proof.
  intros r1 r2 r3. unfold by_gpa.
  destruct (risk_GPA r1) as [a|], (risk_GPA r2) as [b|], (risk_GPA r3) as [d|];
    simpl; try done.
  apply Qle_trans.
Qed.

Lemma COUNT_case {A} (P : A → Prop) `{!∀ x, Decision (P x)} (l : list A) :
  COUNT ((λ x, if decide (P x) then Some 1 else None) <$> l) =
  Z.of_nat (length (filter P l)).
Proof.
  unfold COUNT. rewrite not_null_fmap. f_equal.
  induction l as [|a l IH]; [done|]. csimpl. rewrite filter_cons.
  destruct (decide (P a)); csimpl; by rewrite IH.
Qed.

Lemma risk_row_group s st p :
  risk_row (s_StudentID st, full_name st, s_Email st, p_ProgramName p,
            (λ e, (st, p, e)) <$> graded_enrollments (s_StudentID st) s) =
  student_risk_row s st p.
Proof.
  unfold risk_row, student_risk_row, student_gpa.
  rewrite <- !list_fmap_compose. f_equal.
  - by rewrite <- (COUNT_some e_EnrollmentID).
  - by rewrite <- COUNT_case.
Qed.

(** The groups of the query are the Active students that have a graded
    enrollment, each with its program. *)
Lemma risk_groups s g :
  integrity s →
  g ∈ group_by risk_key (risk_from s) ↔
  ∃ st p,
    st ∈ Student s ∧ p ∈ Program s ∧ s_ProgramID st = p_ProgramID p ∧
    s_Status st = "Active" ∧ graded_enrollments (s_StudentID st) s ≠ [] ∧
    g = (s_StudentID st, full_name st, s_Email st, p_ProgramName p,
         (λ e, (st, p, e)) <$> graded_enrollments (s_StudentID st) s).
Proof.
  intros Hint. unfold group_by.
  rewrite list_elem_of_fmap. setoid_rewrite elem_of_remove_dups.
  setoid_rewrite list_elem_of_fmap. split.
  - intros (k & -> & [[st p] e] & -> & Hr).
    apply risk_from_elem in Hr as (Hst & Hp & Hsp & He & Hse & Hg & Ha).
    exists st, p. split_and!; try done.
    + intros Hnil.
      assert (e ∈ graded_enrollments (s_StudentID st) s) as Hin
        by (by apply list_elem_of_filter).
      rewrite Hnil in Hin. by apply not_elem_of_nil in Hin.
    + unfold risk_key at 1; simpl. f_equal. by apply risk_group.
  - intros (st & p & Hst & Hp & Hsp & Ha & Hne & ->).
    assert (∃ e, e ∈ graded_enrollments (s_StudentID st) s) as [e Hin].
    { destruct (graded_enrollments (s_StudentID st) s); [done|].
      eexists. left. }
    apply list_elem_of_filter in Hin as [[Hse Hgr] He].
    exists (s_StudentID st, full_name st, s_Email st, p_ProgramName p).
    split; [f_equal; symmetry; by apply risk_group|].
    exists (st, p, e). split; [done|]. by apply risk_from_elem.
Qed.

Lemma program_lookup s st p :
  integrity s →
  program (s_ProgramID st) s = Some p ↔
  p ∈ Program s ∧ s_ProgramID st = p_ProgramID p.
Proof.
  intros (_ & Hp & _). unfold program. split.
  - intros Hhead.
    assert (p ∈ filter (λ p, p_ProgramID p = s_ProgramID st) (Program s))
      as Hin by (destruct (filter _ _); simplify_eq/=; left).
    by apply list_elem_of_filter in Hin as [? ?].
  - intros [Hin Heq]. by rewrite (filter_key_l p_ProgramID _ _ p).
Qed.

Lemma risk_keys_by_student s k1 k2 :
  integrity s →
  k1 ∈ risk_key <$> risk_from s → k2 ∈ risk_key <$> risk_from s →
  k1.1.1.1 = k2.1.1.1 → k1 = k2.
Proof.
  intros (Hst & Hp & _).
  intros ([[st1 p1] e1] & -> & Hr1)%list_elem_of_fmap.
  intros ([[st2 p2] e2] & -> & Hr2)%list_elem_of_fmap.
  apply risk_from_elem in Hr1 as (Hs1 & Hp1 & Hsp1 & _).
  apply risk_from_elem in Hr2 as (Hs2 & Hp2 & Hsp2 & _).
  unfold risk_key; simpl. intros Hid.
  assert (st1 = st2) as -> by (by eapply (NoDup_fmap_inj_on s_StudentID)).
  assert (p1 = p2) as ->; [|done].
  eapply (NoDup_fmap_inj_on p_ProgramID); [done..|congruence].
Qed.

Lemma students_at_risk_run gpa_threshold c :
  students_at_risk gpa_threshold c =
  (mkConn (committed c) (txn c) (lastrowid c) (-1),
   inr (risk_query gpa_threshold (view c))).
Proof. reflexivity. Qed.

(** C9, amended. On a store whose keys hold, [students_at_risk] returns,
    in ascending order of GPA, one row for each student with Status
    'Active' whose GPA is strictly below the threshold, and no other row.
    The GPA compared and returned is the average of the grade points of the
    student's graded enrollments rounded to two decimals, grades without
    points left out; a student for whom it is [NULL], so one without graded
    enrollments, is not returned, nor is one whose GPA equals the
    threshold.  Each row carries the student's number of graded
    enrollments and the number of those graded F. *)
Theorem students_at_risk_rows (gpa_threshold : Q) (c : Conn) :
  integrity (view c) →
  ∃ c' rows,
    students_at_risk gpa_threshold c = (c', inr rows) ∧
    committed c' = committed c ∧ txn c' = txn c ∧
    StronglySorted by_gpa rows ∧
    NoDup (StudentID <$> rows) ∧
    ∀ r, r ∈ rows ↔
      ∃ st p,
        st ∈ Student (view c) ∧
        program (s_ProgramID st) (view c) = Some p ∧
        s_Status st = "Active" ∧
        sql_lt (student_gpa (s_StudentID st) (view c)) gpa_threshold ∧
        r = student_risk_row (view c) st p.
Proof.
  intros Hint. rewrite students_at_risk_run.
  eexists _, _. split; [reflexivity|]. simpl. split_and!; try done.
  - apply StronglySorted_merge_sort; apply _.
  - unfold risk_query. rewrite merge_sort_Permutation.
    apply NoDup_fmap_filter. unfold group_by.
    rewrite <- !list_fmap_compose.
    apply NoDup_fmap_2_strong; [|apply NoDup_remove_dups].
    intros k1 k2 Hk1 Hk2 Heq.
    rewrite elem_of_remove_dups in Hk1. rewrite elem_of_remove_dups in Hk2.
    apply (risk_keys_by_student (view c) k1 k2 Hint Hk1 Hk2).
    clear Hk1 Hk2. destruct k1 as [[[? ?] ?] ?], k2 as [[[? ?] ?] ?].
    exact Heq.
  - intros r. unfold risk_query. rewrite merge_sort_Permutation.
    rewrite list_elem_of_filter, list_elem_of_fmap. split.
    + intros (Hlt & g & -> & Hg).
      apply risk_groups in Hg as (st & p & Hst & Hp & Hsp & Ha & _ & ->);
        [|done].
      rewrite risk_row_group in Hlt |- *.
      exists st, p. split_and!; try done.
      by apply program_lookup.
    + intros (st & p & Hst & [Hp Hsp]%program_lookup & Ha & Hlt & ->);
        [|done].
      split; [done|].
      eexists. split; [symmetry; apply risk_row_group|].
      apply risk_groups; [done|]. exists st, p. split_and!; try done.
      intros Hnil. unfold student_gpa in Hlt. by rewrite Hnil in Hlt.
Qed.

Lemma students_at_risk_rows_witness :
  ∃ c' rows,
    students_at_risk (5 # 2) (connect graded_store) = (c', inr rows) ∧
    committed c' = graded_store ∧ txn c' = None ∧
    StronglySorted by_gpa rows ∧
    NoDup (StudentID <$> rows) ∧
    ∀ r, r ∈ rows ↔
      ∃ st p,
        st ∈ Student graded_store ∧
        program (s_ProgramID st) graded_store = Some p ∧
        s_Status st = "Active" ∧
        sql_lt (student_gpa (s_StudentID st) graded_store) (5 # 2) ∧
        r = student_risk_row graded_store st p.
Proof.
  apply (students_at_risk_rows (5 # 2) (connect graded_store)).
  apply (bool_decide_unpack _). vm_compute. exact I.
Defined.

(** C9, as stated, fails where rounding moves a GPA across the threshold:
    in [graded_store] student 1 has grades A, B, B, so an average of 10/3,
    which is not below 3.333; the query compares the rounded GPA 3.33 and
    returns the student. *)
Lemma at_risk_rounding_crosses_threshold :
  ¬ at_risk_claim (3333 # 1000) (connect graded_store).
Proof.
  intros (c' & rows & Hrun & Hclaim).
  rewrite students_at_risk_run in Hrun. injection Hrun as _ <-.
  destruct (Hclaim (mkStudent 1 "Ada" "Lovelace" "ada@uni.edu" 1 "Active"))
    as [Hin _].
  - apply list_elem_of_In. simpl. tauto.
  - destruct Hin as [_ Hlt].
    + apply list_elem_of_In. vm_compute. tauto.
    + vm_compute in Hlt. discriminate Hlt.
Qed.

(** The rows of [students_at_risk] on [graded_store]: with threshold 2.5
    only student 2 (F, W, D: GPA 0.5, one F); student 1 is above, student 3
    has no grade and student 4 is not Active.  With threshold 0.5 student 2
    is no longer returned: the comparison is strict. *)
Example students_at_risk_below :
  (students_at_risk (5 # 2) (connect graded_store)).2 =
  inr [mkRiskRow 2 "Alan Turing" "alan@uni.edu" "Computer Science" 3
         (Some (1 # 2)) 1].
Proof. by vm_compute. Qed.

Example students_at_risk_strict :
  (students_at_risk (1 # 2) (connect graded_store)).2 = inr [].
Proof. by vm_compute. Qed.


(** * Further properties of the enrollment operations *)

(** ** What [enroll_student] needs *)

(** X1. [enroll_student] returns exactly when no transaction is open on the
    connection, the offering exists with CurrentEnrollment below
    MaxStudents, the student has no enrollment row for the offering, and
    the student exists; in every other case it raises. *)
Theorem enroll_student_returns_iff (student_id offering_id : Z) (c : Conn) :
  (∃ c' id, enroll_student student_id offering_id c = (c', inr id)) ↔
  txn c = None ∧
  (∃ co, offering offering_id (committed c) = Some co
         ∧ co_CurrentEnrollment co < co_MaxStudents co) ∧
  enrollments_of student_id offering_id (committed c) = [] ∧
  student_id ∈ s_StudentID <$> Student (committed c).
Proof.
  rewrite enroll_student_run; simpl.
  destruct (txn c); [split; [by intros (? & ? & [=])|by intros [[=] _]]|].
  destruct (offering offering_id (committed c)) as [co|];
    [|split; [by intros (? & ? & [=])|by intros (_ & (? & [=] & _) & _)]].
  destruct (decide (_ >= _)).
  { split; [by intros (? & ? & [=])|].
    intros (_ & (co' & [= <-] & Hlt) & _). lia. }
  destruct (enrollments_of _ _ _);
    [|split; [by intros (? & ? & [=])|by intros (_ & _ & [=] & _)]].
  destruct (decide (student_id ∈ _));
    [|split; [by intros (? & ? & [=])|by intros (_ & _ & _ & ?)]].
  split; [intros _|by eauto]. split_and!; try done.
  exists co. split; [done|lia].
Qed.

(** X2. On a connection without an open transaction, enrolling into an
    offering that does not exist raises "Course offering not found" and
    leaves the store as it was. *)
Theorem enroll_student_offering_not_found (student_id offering_id : Z)
    (c : Conn) :
  txn c = None →
  offering offering_id (committed c) = None →
  ∃ c', enroll_student student_id offering_id c =
          (c', inl (Exception "Enrollment failed: Course offering not found"))
        ∧ committed c' = committed c ∧ txn c' = None.
Proof.
  intros Ht Ho. rewrite enroll_student_run; simpl. rewrite Ht, Ho. eauto.
Qed.

Lemma enroll_student_offering_not_found_witness :
  ∃ c', enroll_student 1 9 (connect sample_store) =
          (c', inl (Exception "Enrollment failed: Course offering not found"))
        ∧ committed c' = sample_store ∧ txn c' = None.
Proof.
  apply (enroll_student_offering_not_found 1 9 (connect sample_store));
    reflexivity.
Defined.

(** X3. When the offering has a seat and the pair is new but no student has
    the identifier, the insert is refused by the store's foreign key:
    [enroll_student] raises "FOREIGN KEY constraint failed" under its own
    prefix, and the transaction it had begun is rolled back. *)
Theorem enroll_student_unknown_student (student_id offering_id : Z)
    (c : Conn) (co : OfferingRow) :
  txn c = None →
  offering offering_id (committed c) = Some co →
  co_CurrentEnrollment co < co_MaxStudents co →
  enrollments_of student_id offering_id (committed c) = [] →
  student_id ∉ s_StudentID <$> Student (committed c) →
  ∃ c', enroll_student student_id offering_id c =
          (c', inl (Exception
             "Enrollment failed: FOREIGN KEY constraint failed"))
        ∧ committed c' = committed c ∧ txn c' = None.
Proof.
  intros Ht Ho Hseat Hnew Hno. rewrite enroll_student_run; simpl.
  rewrite Ht, Ho, decide_False, Hnew, decide_False by (done || lia). eauto.
Qed.

Lemma enroll_student_unknown_student_witness :
  ∃ c', enroll_student 7 1 (connect sample_store) =
          (c', inl (Exception
             "Enrollment failed: FOREIGN KEY constraint failed"))
        ∧ committed c' = sample_store ∧ txn c' = None.
Proof.
  apply (enroll_student_unknown_student 7 1 (connect sample_store)
           (mkOffering 1 1 "Spring" 2024 2 0)).
  - reflexivity.
  - reflexivity.
  - simpl. lia.
  - reflexivity.
  - intros Hin%list_elem_of_In. simpl in Hin. intuition discriminate.
Defined.

(** X4. With a transaction already open on the connection, [enroll_student]
    and [withdraw_from_course] cannot begin theirs: they raise "cannot start
    a transaction within a transaction" under their prefix, and their
    rollback discards what the open transaction had changed: afterwards the
    connection sees the committed store again. *)
Theorem begin_in_open_transaction (student_id offering_id enrollment_id : Z)
    (c : Conn) (pending : Store) :
  txn c = Some pending →
  (∃ c', enroll_student student_id offering_id c =
           (c', inl (Exception "Enrollment failed: cannot start a transaction within a transaction"))
         ∧ committed c' = committed c ∧ txn c' = None
         ∧ view c' = committed c) ∧
  (∃ c', withdraw_from_course enrollment_id c =
           (c', inl (Exception "Withdrawal failed: cannot start a transaction within a transaction"))
         ∧ committed c' = committed c ∧ txn c' = None
         ∧ view c' = committed c).
Proof.
  intros Ht. rewrite enroll_student_run, withdraw_from_course_run; simpl.
  rewrite Ht. split; eexists; by split_and!.
Qed.

Lemma begin_in_open_transaction_witness :
  let c := mkConn sample_store (Some full_store) None (-1) in
  (∃ c', enroll_student 2 1 c =
           (c', inl (Exception "Enrollment failed: cannot start a transaction within a transaction"))
         ∧ committed c' = sample_store ∧ txn c' = None
         ∧ view c' = sample_store) ∧
  (∃ c', withdraw_from_course 1 c =
           (c', inl (Exception "Withdrawal failed: cannot start a transaction within a transaction"))
         ∧ committed c' = sample_store ∧ txn c' = None
         ∧ view c' = sample_store).
Proof.
  intros c. apply (begin_in_open_transaction 2 1 1 c full_store). reflexivity.
Defined.

(** ** Invariants of sequences of calls *)

Lemma run_command_mutation cmd c :
  txn c = None →
  mutation (committed c) (committed (run_command cmd c))
  ∧ txn (run_command cmd c) = None.
Proof.
  intros Ht. destruct cmd as [sid oid|id grade|id]; simpl.
  - rewrite enroll_student_run; simpl. rewrite Ht.
    destruct (offering oid (committed c)) as [co|] eqn:Ho;
      [|split; [constructor|done]].
    destruct (decide (_ >= _)); [split; [constructor|done]|].
    destruct (enrollments_of _ _ _) eqn:Hnew; [|split; [constructor|done]].
    destruct (decide (sid ∈ _)); [|split; [constructor|done]].
    split; [|done]. simpl. apply (mutation_insert _ sid oid co); [done| |done].
    lia.
  - rewrite update_grade_run. unfold view. rewrite Ht; simpl.
    destruct (decide (grade ∉ valid_grades)); [split; [constructor|done]|].
    destruct (decide (id ∈ _)); [|split; [constructor|done]].
    split; [|done]. simpl.
    apply (mutation_update _ (λ e, if decide (e_EnrollmentID e = id) then _ else e)).
    intros row. by case_decide.
  - rewrite withdraw_from_course_run, Ht.
    destruct (decide (Exists _ _)); [|split; [constructor|done]].
    split; [|done]. simpl.
    apply (mutation_update _
             (λ e, if decide (e_EnrollmentID e = id ∧ e_Status e = "Enrolled")
                   then _ else e)).
    intros row. by case_decide.
Qed.

Lemma run_commands_invariant (P : Store → Prop) :
  (∀ s s', mutation s s' → P s → P s') →
  ∀ cmds c, txn c = None → P (committed c) →
    P (committed (run_commands cmds c)) ∧ txn (run_commands cmds c) = None.
Proof.
  intros Hstep cmds. induction cmds as [|cmd cmds IH]; intros c Ht HP; [done|].
  simpl. destruct (run_command_mutation cmd c Ht) as [Hm Ht'].
  apply IH; [done|]. by eapply Hstep.
Qed.

Lemma length_filter_update (f : EnrollmentRow → EnrollmentRow)
    (offering_id : Z) (l : list EnrollmentRow) :
  (∀ e, e_OfferingID (f e) = e_OfferingID e) →
  length (filter (λ e, e_OfferingID e = offering_id) (f <$> l)) =
  length (filter (λ e, e_OfferingID e = offering_id) l).
Proof.
  intros Hf. rewrite filter_fmap, length_fmap. f_equal.
  apply list_filter_iff. intros e. by rewrite Hf.
Qed.

Lemma mutation_capacity s s' :
  mutation s s' →
  NoDup (co_OfferingID <$> CourseOffering s) ∧ capacity_respected s →
  NoDup (co_OfferingID <$> CourseOffering s') ∧ capacity_respected s'.
Proof.
  intros [|f Hf|sid oid co Ho Hseat Hnew] [Hnd Hcap]; [done..|]. simpl.
  destruct (increment_enrollment_keys oid (CourseOffering s)) as [-> _].
  split; [done|]. unfold capacity_respected in *; simpl.
  apply Forall_fmap. rewrite Forall_forall in Hcap. apply Forall_forall.
  intros co0 Hin. simpl. unfold increment_enrollment.
  case_decide as Hid; simpl; [|by apply Hcap].
  destruct (offering_elem_of _ _ _ Ho) as [Hcoin Hcoid].
  assert (co0 = co) as -> by
    (eapply (NoDup_fmap_inj_on co_OfferingID); [done..|congruence]).
  lia.
Qed.

Lemma mutation_counters s s' :
  mutation s s' → counters_in_sync s → counters_in_sync s'.
Proof.
  intros [|f Hf|sid oid co Ho Hseat Hnew] Hsync; [done| |];
    unfold counters_in_sync, offering_enrollments in *; simpl.
  - eapply Forall_impl; [exact Hsync|]. intros co0 ->. simpl.
    by rewrite length_filter_update by (intros e; apply Hf).
  - apply Forall_fmap. eapply Forall_impl; [exact Hsync|].
    intros co0 Hco0. simpl in *. unfold increment_enrollment.
    rewrite filter_app.
    case_decide as Hid; simpl.
    + rewrite filter_cons_True by done. rewrite length_app; simpl. lia.
    + rewrite filter_cons_False by (simpl; congruence).
      rewrite filter_nil, app_nil_r. done.
Qed.

Lemma mutation_unique s s' :
  mutation s s' → enrollments_unique s → enrollments_unique s'.
Proof.
  intros [|f Hf|sid oid co Ho Hseat Hnew] [Hids Hpairs]; [done| |];
    unfold enrollments_unique; simpl.
  - rewrite <- !list_fmap_compose.
    rewrite (list_fmap_ext (e_EnrollmentID ∘ f) e_EnrollmentID)
      by (intros ? e ?; apply Hf).
    rewrite (list_fmap_ext ((λ e, (e_StudentID e, e_OfferingID e)) ∘ f)
               (λ e, (e_StudentID e, e_OfferingID e))); [done|].
    intros ? e ?. simpl. destruct (Hf e) as (_ & -> & ->). done.
  - rewrite !fmap_app; simpl. split.
    + apply NoDup_app. split_and!; [done| |apply NoDup_singleton].
      intros id Hin ->%list_elem_of_singleton.
      by apply (next_rowid_fresh (e_EnrollmentID <$> Enrollment s)).
    + apply NoDup_app. split_and!; [done| |apply NoDup_singleton].
      intros pair Hin ->%list_elem_of_singleton.
      by apply (enrollments_of_nil sid oid s).
Qed.

(** X5. Offering identifiers being unique, a store in which no offering
    exceeds its capacity stays so through any sequence of enroll, grade and
    withdraw calls, whether they return or raise. *)
Theorem capacity_never_exceeded (cmds : list command) (c : Conn) :
  txn c = None →
  NoDup (co_OfferingID <$> CourseOffering (committed c)) →
  capacity_respected (committed c) →
  capacity_respected (committed (run_commands cmds c)).
Proof.
  intros Ht Hnd Hcap.
  apply (run_commands_invariant
           (λ s, NoDup (co_OfferingID <$> CourseOffering s)
                 ∧ capacity_respected s)); [|done..].
  intros s s'. apply mutation_capacity.
Qed.

Lemma capacity_never_exceeded_witness :
  capacity_respected
    (committed (run_commands [Enroll 1 2; Enroll 2 2; Withdraw 1; Enroll 2 2]
                  (connect sample_store))).
Proof.
  apply (capacity_never_exceeded _ (connect sample_store));
    [reflexivity|..]; apply (bool_decide_unpack _); vm_compute; exact I.
Defined.

(** X6. A store in which the counter of every offering is the number of its
    enrollment rows stays so through any sequence of calls: the insert
    trigger counts every new row, and since a withdrawal keeps the row and
    the counter, the counter is the number of students ever enrolled, not
    of those still enrolled. *)
Theorem counters_stay_in_sync (cmds : list command) (c : Conn) :
  txn c = None →
  counters_in_sync (committed c) →
  counters_in_sync (committed (run_commands cmds c)).
Proof.
  intros Ht Hsync.
  apply (run_commands_invariant counters_in_sync); [|done..].
  intros s s'. apply mutation_counters.
Qed.

Lemma counters_stay_in_sync_witness :
  counters_in_sync
    (committed (run_commands [Enroll 1 2; Enroll 2 1; Withdraw 1]
                  (connect sample_store))).
Proof.
  apply (counters_stay_in_sync _ (connect sample_store)); [reflexivity|].
  apply (bool_decide_unpack _). vm_compute. exact I.
Defined.

(** X7. A store in which enrollment identifiers are unique and no (student,
    offering) pair has two rows stays so through any sequence of calls:
    the duplicate check of [enroll_student] is enough to keep the pairs
    unique. *)
Theorem enrollments_stay_unique (cmds : list command) (c : Conn) :
  txn c = None →
  enrollments_unique (committed c) →
  enrollments_unique (committed (run_commands cmds c)).
Proof.
  intros Ht Huniq.
  apply (run_commands_invariant enrollments_unique); [|done..].
  intros s s'. apply mutation_unique.
Qed.

Lemma enrollments_stay_unique_witness :
  enrollments_unique
    (committed (run_commands [Enroll 1 2; Enroll 1 2; Enroll 1 1; Withdraw 1;
                              Enroll 1 2]
                  (connect sample_store))).
Proof.
  apply (enrollments_stay_unique _ (connect sample_store)); [reflexivity|].
  apply (bool_decide_unpack _). vm_compute. exact I.
Defined.

Lemma mutation_history s0 s s' :
  mutation s s' →
  (Student s = Student s0 ∧ Program s = Program s0 ∧ Course s = Course s0 ∧
   ∃ added, enrollment_identity <$> Enrollment s =
            ((enrollment_identity <$> Enrollment s0) ++ added)%list) →
  (Student s' = Student s0 ∧ Program s' = Program s0 ∧ Course s' = Course s0 ∧
   ∃ added, enrollment_identity <$> Enrollment s' =
            ((enrollment_identity <$> Enrollment s0) ++ added)%list).
Proof.
  intros [|f Hf|sid oid co Ho Hseat Hnew] (Hs & Hp & Hc & added & Hrows);
    simpl; split_and!; try done.
  - by exists added.
  - exists added. rewrite <- Hrows, <- list_fmap_compose.
    apply list_fmap_ext. intros ? e ?. unfold enrollment_identity; simpl.
    by destruct (Hf e) as (-> & -> & ->).
  - eexists. rewrite fmap_app, Hrows, <- (assoc_L (++)). done.
Qed.

Lemma mutation_counters_grow l0 s s' :
  mutation s s' →
  Forall2 counter_grew l0 (CourseOffering s) →
  Forall2 counter_grew l0 (CourseOffering s').
Proof.
  intros [|f Hf|sid oid co Ho Hseat Hnew] Hgrew; [done..|]. simpl.
  apply Forall2_fmap_r. eapply Forall2_impl; [exact Hgrew|].
  intros co0 co1 (? & ? & ? & ? & ? & ?). simpl.
  unfold increment_enrollment, counter_grew.
  case_decide; simpl; split_and!; try done. lia.
Qed.

(** X8. No sequence of enroll, grade and withdraw calls deletes an
    enrollment or changes whose it is: the identifiers, students and
    offerings of the rows present before are still there, in place, with
    new rows only after them; and the Student, Program and Course tables
    are never written. *)
Theorem enrollments_are_kept (cmds : list command) (c : Conn) :
  txn c = None →
  let s := committed c in
  let s' := committed (run_commands cmds c) in
  Student s' = Student s ∧ Program s' = Program s ∧ Course s' = Course s ∧
  ∃ added, enrollment_identity <$> Enrollment s' =
           ((enrollment_identity <$> Enrollment s) ++ added)%list.
Proof.
  intros Ht s s'.
  apply (run_commands_invariant
           (λ s1, Student s1 = Student s ∧ Program s1 = Program s
                  ∧ Course s1 = Course s
                  ∧ ∃ added, enrollment_identity <$> Enrollment s1 =
                             ((enrollment_identity <$> Enrollment s) ++ added)%list));
    [|done|].
  - intros s1 s2. apply mutation_history.
  - split_and!; try done. exists []. by rewrite app_nil_r.
Qed.

Lemma enrollments_are_kept_witness :
  let s' := committed (run_commands [Enroll 2 1; Withdraw 1; UpdateGrade 1 "B"]
                         (connect full_store)) in
  Student s' = Student full_store ∧ Program s' = Program full_store ∧
  Course s' = Course full_store ∧
  ∃ added, enrollment_identity <$> Enrollment s' =
           ((enrollment_identity <$> Enrollment full_store) ++ added)%list.
Proof.
  apply (enrollments_are_kept _ (connect full_store)). reflexivity.
Defined.

(** X9. Through any sequence of calls every offering row keeps its
    identifier, course, term and MaxStudents, and its CurrentEnrollment
    never goes down: no call lowers a counter, a withdrawal included. *)
Theorem counters_never_decrease (cmds : list command) (c : Conn) :
  txn c = None →
  Forall2 counter_grew (CourseOffering (committed c))
          (CourseOffering (committed (run_commands cmds c))).
Proof.
  intros Ht.
  apply (run_commands_invariant
           (λ s1, Forall2 counter_grew (CourseOffering (committed c))
                          (CourseOffering s1))); [|done|].
  - intros s1 s2. apply mutation_counters_grow.
  - apply Forall_Forall2_diag, Forall_forall. intros co _.
    unfold counter_grew. split_and!; try done.
Qed.

Lemma counters_never_decrease_witness :
  Forall2 counter_grew (CourseOffering sample_store)
    (CourseOffering
       (committed (run_commands [Enroll 1 2; Withdraw 1; Enroll 2 1]
                     (connect sample_store)))).
Proof.
  apply (counters_never_decrease _ (connect sample_store)). reflexivity.
Defined.

(** ** How the operations compose *)

(** X10. On a connection without an open transaction, [update_grade] is
    idempotent: a second call with the same arguments returns or raises as
    the first did and leaves the committed store as the first left it. *)
Theorem update_grade_idempotent (enrollment_id : Z) (grade : string)
    (c : Conn) :
  txn c = None →
  let c1 := (update_grade enrollment_id grade c).1 in
  (update_grade enrollment_id grade c1).2 =
    (update_grade enrollment_id grade c).2 ∧
  committed (update_grade enrollment_id grade c1).1 = committed c1.
Proof.
  intros Ht. simpl.
  assert (view c = committed c) as Hv by (unfold view; by rewrite Ht).
  rewrite (update_grade_run _ _ c), Hv.
  destruct (decide (grade ∉ valid_grades)) as [Hbad|Hok]; simpl.
  { by rewrite update_grade_run, decide_True. }
  destruct (decide (enrollment_id ∈ e_EnrollmentID <$> Enrollment (committed c)))
    as [Hin|Hin]; simpl; rewrite update_grade_run, decide_False by done;
    unfold view; simpl.
  - rewrite decide_True.
    + split; [done|]. simpl. f_equal.
      rewrite <- list_fmap_compose. apply list_fmap_ext.
      intros ? row ?. simpl. by repeat (case_decide; simpl).
    + rewrite <- list_fmap_compose.
      rewrite (list_fmap_ext _ e_EnrollmentID); [done|].
      intros ? row ?. simpl. by case_decide.
  - by rewrite decide_False.
Qed.

Lemma update_grade_idempotent_witness :
  let c1 := (update_grade 7 "A" (connect graded_store)).1 in
  (update_grade 7 "A" c1).2 = (update_grade 7 "A" (connect graded_store)).2 ∧
  committed (update_grade 7 "A" c1).1 = committed c1.
Proof.
  apply (update_grade_idempotent 7 "A" (connect graded_store)). reflexivity.
Defined.

Lemma not_enrolled_after (f : EnrollmentRow → EnrollmentRow)
    (enrollment_id : Z) (l : list EnrollmentRow) :
  (∀ e, e_EnrollmentID (f e) = enrollment_id → e_Status (f e) ≠ "Enrolled") →
  ¬ Exists (λ e, e_EnrollmentID e = enrollment_id ∧ e_Status e = "Enrolled")
      (f <$> l).
Proof.
  intros Hf (e' & (e & -> & Hin)%list_elem_of_fmap & Hid & Hst)%Exists_exists.
  by apply (Hf e).
Qed.

(** X11. An enrollment that has been withdrawn or graded cannot be
    withdrawn: after [withdraw_from_course] or [update_grade] has returned
    for an identifier, [withdraw_from_course] for it raises "Enrollment not
    found or already completed" and changes nothing. *)
Theorem no_withdrawal_afterwards (enrollment_id : Z) (grade : string)
    (c c1 : Conn) (r : bool) :
  withdraw_from_course enrollment_id c = (c1, inr r)
  ∨ update_grade enrollment_id grade c = (c1, inr r) →
  ∃ c2,
    withdraw_from_course enrollment_id c1 =
      (c2, inl (Exception
         "Withdrawal failed: Enrollment not found or already completed")) ∧
    committed c2 = committed c1 ∧ txn c2 = None.
Proof.
  intros Hfirst.
  assert (txn c1 = None ∧
          ¬ Exists (λ e, e_EnrollmentID e = enrollment_id
                         ∧ e_Status e = "Enrolled")
              (Enrollment (committed c1))) as [Ht1 Hno].
  { destruct Hfirst as [Hw|Hg].
    - rewrite withdraw_from_course_run in Hw.
      destruct (txn c); [discriminate|].
      destruct (decide (Exists _ _)); [|discriminate].
      injection Hw as <- _. simpl. split; [done|].
      apply not_enrolled_after. intros row. case_decide; simpl; [done|tauto].
    - rewrite update_grade_run in Hg.
      destruct (decide (grade ∉ valid_grades)); [discriminate|].
      destruct (decide (enrollment_id ∈ _)); [|discriminate].
      injection Hg as <- _. simpl. split; [done|].
      apply not_enrolled_after. intros row. by case_decide. }
  rewrite withdraw_from_course_run, Ht1, decide_False by done.
  eexists. by split_and!.
Qed.

Lemma no_withdrawal_afterwards_witness :
  ∃ c2,
    withdraw_from_course 7 (withdraw_from_course 7 (connect graded_store)).1 =
      (c2, inl (Exception
         "Withdrawal failed: Enrollment not found or already completed")) ∧
    committed c2 = committed (withdraw_from_course 7 (connect graded_store)).1
    ∧ txn c2 = None.
Proof.
  apply (no_withdrawal_afterwards 7 "A" (connect graded_store) _ true).
  left. reflexivity.
Defined.

Lemma enroll_student_after_update student_id offering_id c c1
    (f : EnrollmentRow → EnrollmentRow) :
  txn c = None → txn c1 = None →
  (∀ e, e_EnrollmentID (f e) = e_EnrollmentID e
        ∧ e_StudentID (f e) = e_StudentID e
        ∧ e_OfferingID (f e) = e_OfferingID e) →
  committed c1 =
    mkStore (Student (committed c)) (Program (committed c))
      (Course (committed c)) (CourseOffering (committed c))
      (f <$> Enrollment (committed c)) →
  (enroll_student student_id offering_id c1).2 =
  (enroll_student student_id offering_id c).2.
Proof.
  intros Ht Ht1 Hf Hc1. rewrite !enroll_student_run; simpl.
  rewrite Ht, Ht1, Hc1. unfold offering; simpl.
  destruct (head _) as [co|]; [|done].
  destruct (decide (_ >= _)); [done|].
  assert (enrollments_of student_id offering_id
            (mkStore (Student (committed c)) (Program (committed c))
               (Course (committed c)) (CourseOffering (committed c))
               (f <$> Enrollment (committed c))) =
          f <$> enrollments_of student_id offering_id (committed c)) as ->.
  { unfold enrollments_of; simpl. rewrite filter_fmap. f_equal.
    apply list_filter_iff. intros e. by destruct (Hf e) as (_ & -> & ->). }
  destruct (enrollments_of _ _ _); simpl; [|done].
  destruct (decide (student_id ∈ _)); [|done]. simpl.
  rewrite <- list_fmap_compose.
  rewrite (list_fmap_ext (e_EnrollmentID ∘ f) e_EnrollmentID); [done|].
  intros ? row ?. apply Hf.
Qed.

Lemma enroll_student_after_nothing student_id offering_id c c1 :
  txn c = None → txn c1 = None → committed c1 = committed c →
  (enroll_student student_id offering_id c1).2 =
  (enroll_student student_id offering_id c).2.
Proof.
  intros Ht Ht1 Hc1. rewrite !enroll_student_run; simpl.
  rewrite Ht, Ht1, Hc1.
  destruct (offering offering_id (committed c)); [|done].
  destruct (decide (_ >= _)); [done|].
  destruct (enrollments_of _ _ _); [|done].
  by destruct (decide (student_id ∈ _)).
Qed.

(** X12. Withdrawing or grading an enrollment does not change what a later
    [enroll_student] returns or raises, whatever the student and offering:
    the capacity and duplicate checks read the counter and the rows, which
    a withdrawal leaves in place, so a withdrawn seat stays taken and the
    withdrawn student cannot enroll in the offering again. *)
Theorem enroll_student_ignores_withdrawal (student_id offering_id : Z)
    (enrollment_id : Z) (grade : string) (c : Conn) :
  txn c = None →
  (enroll_student student_id offering_id
     (withdraw_from_course enrollment_id c).1).2 =
    (enroll_student student_id offering_id c).2 ∧
  (enroll_student student_id offering_id
     (update_grade enrollment_id grade c).1).2 =
    (enroll_student student_id offering_id c).2.
Proof.
  intros Ht. split.
  - rewrite withdraw_from_course_run, Ht.
    destruct (decide (Exists _ _)); simpl.
    + eapply enroll_student_after_update; [done|done| |reflexivity].
      intros row. simpl. by case_decide.
    + by apply enroll_student_after_nothing.
  - rewrite update_grade_run. unfold view. rewrite Ht; simpl.
    destruct (decide (grade ∉ valid_grades)); simpl.
    { apply enroll_student_after_nothing; [done..|]. done. }
    destruct (decide (enrollment_id ∈ _)); simpl.
    + eapply enroll_student_after_update; [done|done| |reflexivity].
      intros row. simpl. by case_decide.
    + by apply enroll_student_after_nothing.
Qed.

Lemma enroll_student_ignores_withdrawal_witness :
  (enroll_student 2 2 (withdraw_from_course 1 (connect full_store)).1).2 =
    inl (Exception "Enrollment failed: Course offering is full") ∧
  (enroll_student 2 2 (update_grade 1 "A" (connect full_store)).1).2 =
    inl (Exception "Enrollment failed: Course offering is full").
Proof.
  apply (enroll_student_ignores_withdrawal 2 2 1 "A" (connect full_store)).
  reflexivity.
Defined.

(** * Further properties of the aggregates *)

(** ** Bounds of the GPA *)

Lemma GradePoints_bounds (grade : option string) (p : Q) :
  GradePoints grade = Some p → (0 <= p ∧ p <= 4 # 1)%Q.
Proof.
  unfold GradePoints. repeat case_decide; intros [= <-]; by split.
Qed.

Lemma points_sum_bounds (l : list Q) :
  Forall (λ p, 0 <= p ∧ p <= 4 # 1)%Q l →
  (0 <= foldr Qplus 0 l ∧
   foldr Qplus 0 l <= (4 # 1) * inject_Z (Z.of_nat (length l)))%Q.
Proof.
  induction 1 as [|p l [Hp0 Hp4] _ [IH0 IH4]]; simpl foldr; simpl length.
  - split; [apply Qle_refl|]. by vm_compute.
  - split.
    + exact (Qplus_le_compat 0 p 0 _ Hp0 IH0).
    + rewrite Nat2Z.inj_succ, <- Z.add_1_l, inject_Z_plus.
      rewrite Qmult_plus_distr_r. apply Qplus_le_compat; [|done].
      by rewrite Qmult_1_r.
Qed.

Lemma AVG_bounds (xs : list real) (a : Q) :
  Forall (λ x, ∀ p, x = Some p → 0 <= p ∧ p <= 4 # 1)%Q xs →
  AVG xs = Some a → (0 <= a ∧ a <= 4 # 1)%Q.
Proof.
  intros Hxs. unfold AVG.
  assert (Forall (λ p, 0 <= p ∧ p <= 4 # 1)%Q (not_null xs)) as Hys.
  { unfold not_null. apply Forall_forall. intros p Hp.
    apply list_elem_of_omap in Hp as (x & Hx & Hxp).
    rewrite Forall_forall in Hxs. by apply (Hxs x). }
  destruct (not_null xs) as [|y ys] eqn:Hnn; [done|]. intros [= <-].
  destruct (points_sum_bounds _ Hys) as [H0 H4].
  assert (0 < inject_Z (Z.of_nat (length (y :: ys))))%Q as Hpos.
  { unfold Qlt; simpl. lia. }
  split.
  - apply Qle_shift_div_l; [done|]. by rewrite Qmult_0_l.
  - by apply Qle_shift_div_r.
Qed.

Lemma Qfloor_half (k : Z) : Qfloor (inject_Z k + (1 # 2)) = k.
Proof.
  unfold Qfloor, Qplus, inject_Z; simpl.
  symmetry. apply (Z.div_unique _ 2 k 1); lia.
Qed.

Lemma round_to_bounds (n : nat) (x : Q) (hi : Z) :
  (0 <= x ∧ x <= inject_Z hi)%Q →
  (0 <= round_to n x ∧ round_to n x <= inject_Z hi)%Q.
Proof.
  intros [H0 Hhi]. unfold round_to.
  set (p := inject_Z (10 ^ Z.of_nat n)).
  assert (0 < p)%Q as Hp.
  { assert (0 < 10 ^ Z.of_nat n) by (apply Z.pow_pos_nonneg; lia).
    unfold p, Qlt; simpl. lia. }
  assert (0 <= x * p)%Q as Hy by (apply Qmult_le_0_compat; [done|by apply Qlt_le_weak]).
  rewrite (proj2 (Qle_bool_iff 0 (x * p)) Hy). rewrite Qred_correct.
  assert (0 ≤ Qfloor (x * p + (1 # 2))) as Hm0.
  { rewrite <- (Qfloor_Z 0). apply Qfloor_resp_le.
    exact (Qplus_le_compat 0 (x * p) 0 (1 # 2) Hy (Qle_bool_imp_le 0 (1 # 2) eq_refl)). }
  assert (Qfloor (x * p + (1 # 2)) ≤ hi * 10 ^ Z.of_nat n) as Hmhi.
  { rewrite <- (Qfloor_half (hi * 10 ^ Z.of_nat n)). apply Qfloor_resp_le.
    apply Qplus_le_compat; [|apply Qle_refl].
    rewrite inject_Z_mult. fold p. by apply Qmult_le_compat_r; [|apply Qlt_le_weak]. }
  split.
  - apply Qle_shift_div_l; [done|]. rewrite Qmult_0_l.
    by rewrite <- (Zle_Qle 0).
  - apply Qle_shift_div_r; [done|]. unfold p. rewrite <- inject_Z_mult.
    by rewrite <- Zle_Qle.
Qed.

Lemma rounded_average_bounds {A} (f : A → option string) (l : list A) (g : Q) :
  ROUND (AVG ((λ x, GradePoints (f x)) <$> l)) 2 = Some g →
  (0 <= g ∧ g <= 4 # 1)%Q.
Proof.
  unfold ROUND. destruct (AVG _) as [a|] eqn:Havg; [|done]. intros [= <-].
  apply (round_to_bounds 2 a 4). eapply AVG_bounds; [|exact Havg].
  apply Forall_forall. intros x (y & -> & _)%list_elem_of_fmap p.
  apply GradePoints_bounds.
Qed.

(** X13. Whatever the store, the GPA that [calculate_gpa] returns is either
    [NULL] or between 0 and 4. *)
Theorem calculate_gpa_bounded (student_id : Z) (c c' : Conn) (row : GpaRow)
    (g : Q) :
  calculate_gpa student_id c = (c', inr (Some row)) →
  GPA row = Some g →
  (0 <= g ∧ g <= 4 # 1)%Q.
Proof.
  rewrite calculate_gpa_run. unfold gpa_query, fetchone; simpl.
  intros [= _ <-]; simpl. apply rounded_average_bounds.
Qed.

Lemma calculate_gpa_bounded_witness : (0 <= 333 # 100 ∧ 333 # 100 <= 4 # 1)%Q.
Proof.
  apply (calculate_gpa_bounded 1 (connect graded_store)
           (mkConn graded_store None None (-1))
           (mkGpaRow 3 (Some 9) (Some (333 # 100))) (333 # 100));
    reflexivity.
Defined.

Lemma risk_query_elem gpa_threshold s r :
  r ∈ risk_query gpa_threshold s ↔
  sql_lt (risk_GPA r) gpa_threshold ∧
  ∃ g, r = risk_row g ∧ g ∈ group_by risk_key (risk_from s).
Proof.
  unfold risk_query. rewrite merge_sort_Permutation.
  by rewrite list_elem_of_filter, list_elem_of_fmap.
Qed.

(** X14. Whatever the store, every row that [students_at_risk] returns has a
    GPA that is not [NULL], at least 0 and strictly below the threshold; in
    particular a threshold of 0 or less returns nothing. *)
Theorem students_at_risk_gpa_range (gpa_threshold : Q) (c c' : Conn)
    (rows : list RiskRow) (r : RiskRow) :
  students_at_risk gpa_threshold c = (c', inr rows) →
  r ∈ rows →
  ∃ g, risk_GPA r = Some g ∧ (0 <= g ∧ g < gpa_threshold)%Q.
Proof.
  rewrite students_at_risk_run. intros [= _ <-].
  intros [Hlt (g & -> & _)]%risk_query_elem.
  destruct g as [[[[sid name] email] pname] grows]. simpl in *.
  destruct (ROUND _ 2) as [gpa|] eqn:Hgpa; [|done].
  exists gpa. split_and!; [done| |done].
  by apply (rounded_average_bounds _ _ _ Hgpa).
Qed.

Lemma students_at_risk_gpa_range_witness :
  ∃ g, Some (1 # 2)%Q = Some g ∧ (0 <= g ∧ g < 5 # 2)%Q.
Proof.
  apply (students_at_risk_gpa_range (5 # 2) (connect graded_store)
           (mkConn graded_store None None (-1))
           [mkRiskRow 2 "Alan Turing" "alan@uni.edu" "Computer Science" 3
              (Some (1 # 2)) 1]
           (mkRiskRow 2 "Alan Turing" "alan@uni.edu" "Computer Science" 3
              (Some (1 # 2)) 1)).
  - by vm_compute.
  - left.
Defined.

Lemma gpa_query_graded student_id s :
  integrity s →
  ∃ credits,
    gpa_query student_id s =
    [mkGpaRow (Z.of_nat (length (graded_enrollments student_id s))) credits
       (student_gpa student_id s)].
Proof.
  intros Hint.
  pose proof (gpa_from_rows student_id s (Enrollment s) Hint (λ e He, He))
    as Hrows.
  unfold gpa_query, gpa_from. set (rows := filter _ (_ ≫= _)) in *.
  exists (SUM ((λ r, Some (c_Credits r.2)) <$> rows)).
  unfold student_gpa, AVG. rewrite !not_null_fmap, COUNT_some.
  assert (omap (λ r : EnrollmentRow * OfferingRow * CourseRow,
                  GradePoints (e_Grade r.1.1)) rows =
          omap (λ e, GradePoints (e_Grade e))
               (graded_enrollments student_id s)) as ->.
  { symmetry. apply list_omap_ext. unfold graded_enrollments.
    eapply Forall2_impl; [exact Hrows|]. by intros e r [-> _]. }
  unfold graded_enrollments. by rewrite (Forall2_length _ _ _ Hrows).
Qed.

(** X15. On a store whose keys hold, the two GPA computations agree: for
    every row that [students_at_risk] returns, [calculate_gpa] on that
    student returns the same GPA and the same number of courses. *)
Theorem students_at_risk_agrees_with_gpa (gpa_threshold : Q) (c c' : Conn)
    (rows : list RiskRow) (r : RiskRow) :
  integrity (view c) →
  students_at_risk gpa_threshold c = (c', inr rows) →
  r ∈ rows →
  ∃ c'' row,
    calculate_gpa (StudentID r) c = (c'', inr (Some row)) ∧
    GPA row = risk_GPA r ∧
    CoursesCompleted row = risk_CoursesCompleted r.
Proof.
  intros Hint. rewrite students_at_risk_run. intros [= _ <-].
  intros [_ (g & -> & Hg)]%risk_query_elem.
  apply risk_groups in Hg as (st & p & _ & _ & _ & _ & _ & ->); [|done].
  rewrite risk_row_group. simpl.
  rewrite calculate_gpa_run.
  destruct (gpa_query_graded (s_StudentID st) (view c) Hint) as [credits ->].
  eexists _, _. split; [reflexivity|]. done.
Qed.

Lemma students_at_risk_agrees_with_gpa_witness :
  ∃ c'' row,
    calculate_gpa 2 (connect graded_store) = (c'', inr (Some row)) ∧
    GPA row = Some (1 # 2)%Q ∧ CoursesCompleted row = 3.
Proof.
  apply (students_at_risk_agrees_with_gpa (5 # 2) (connect graded_store)
           (mkConn graded_store None None (-1))
           [mkRiskRow 2 "Alan Turing" "alan@uni.edu" "Computer Science" 3
              (Some (1 # 2)) 1]
           (mkRiskRow 2 "Alan Turing" "alan@uni.edu" "Computer Science" 3
              (Some (1 # 2)) 1)).
  - apply (bool_decide_unpack _). vm_compute. exact I.
  - by vm_compute.
  - left.
Defined.

(** ** The semester report *)

Lemma bind_filter {A B} (P : A → Prop) `{!∀ x, Decision (P x)}
    (g : A → list B) (l : list A) :
  filter P l ≫= g = l ≫= (λ x, if decide (P x) then g x else []).
Proof.
  induction l as [|a l IH]; [done|]. rewrite bind_cons, filter_cons.
  case_decide; [by rewrite bind_cons, IH|by rewrite IH].
Qed.

Lemma joined_enrollments_offering s co r :
  r ∈ joined_enrollments s co → r.1 = co.
Proof.
  unfold joined_enrollments. destruct (filter _ _) as [|e es].
  - by intros ->%list_elem_of_singleton.
  - by intros (e' & -> & _)%list_elem_of_fmap.
Qed.

Lemma filter_all {A} (P : A → Prop) `{!∀ x, Decision (P x)} (l : list A) :
  (∀ x, x ∈ l → P x) → filter P l = l.
Proof.
  induction l as [|a l IH]; intros Hl; [done|].
  rewrite filter_cons_True by (apply Hl; left).
  f_equal. apply IH. intros x Hx. apply Hl. by right.
Qed.

Lemma filter_joined_enrollments (P : OfferingRow → Prop)
    `{!∀ co, Decision (P co)} s co :
  filter (λ r : OfferingRow * option EnrollmentRow, P r.1)
         (joined_enrollments s co) =
  if decide (P co) then joined_enrollments s co else [].
Proof.
  case_decide as HP.
  - apply filter_all. by intros r ->%joined_enrollments_offering.
  - apply filter_none. by intros r ->%joined_enrollments_offering.
Qed.

Lemma semester_from_by_offering semester year s :
  semester_from semester year s =
  term_offerings semester year s ≫= joined_enrollments s.
Proof.
  unfold semester_from, term_offerings. rewrite filter_bind, bind_filter.
  apply list_bind_ext; [|done]. intros co.
  exact (filter_joined_enrollments
           (λ co, co_Semester co = semester ∧ co_Year co = year) s co).
Qed.

Lemma offering_enrollments_flip s co :
  filter (λ e, co_OfferingID co = e_OfferingID e) (Enrollment s) =
  offering_enrollments (co_OfferingID co) s.
Proof. apply list_filter_iff. intros e. split; congruence. Qed.

Lemma joined_enrollments_length s co :
  Z.of_nat (length (joined_enrollments s co)) =
  Z.max 1 (enrollment_count s co).
Proof.
  unfold joined_enrollments, enrollment_count.
  rewrite offering_enrollments_flip.
  destruct (offering_enrollments _ _) as [|e es]; [done|].
  rewrite length_fmap. simpl length. lia.
Qed.

Lemma joined_enrollments_count s co :
  COUNT ((λ r : OfferingRow * option EnrollmentRow, e_EnrollmentID <$> r.2)
         <$> joined_enrollments s co) =
  enrollment_count s co.
Proof.
  unfold joined_enrollments, enrollment_count.
  rewrite offering_enrollments_flip.
  destruct (offering_enrollments _ _) as [|e es]; [done|].
  rewrite <- list_fmap_compose. apply (COUNT_some e_EnrollmentID).
Qed.

Lemma sum_constant {A} (k : Z) (l : list A) :
  foldr Z.add 0 ((λ _, k) <$> l) = k * Z.of_nat (length l).
Proof.
  induction l as [|a l IH]; [simpl; lia|].
  rewrite fmap_cons. simpl foldr. simpl length.
  rewrite IH, Nat2Z.inj_succ, Z.mul_succ_r. lia.
Qed.

Lemma joined_enrollments_sum (f : OfferingRow → Z) s co :
  foldr Z.add 0 ((λ r : OfferingRow * option EnrollmentRow, f r.1)
                 <$> joined_enrollments s co) =
  f co * Z.max 1 (enrollment_count s co).
Proof.
  rewrite <- joined_enrollments_length, <- sum_constant. f_equal.
  apply list_fmap_ext. intros i r Hr.
  by rewrite (joined_enrollments_offering s co r)
    by (by eapply list_elem_of_lookup_2).
Qed.

Lemma sum_app (l1 l2 : list Z) :
  foldr Z.add 0 (l1 ++ l2) = foldr Z.add 0 l1 + foldr Z.add 0 l2.
Proof. induction l1 as [|a l1 IH]; simpl; lia. Qed.

Lemma COUNT_app {A} (l1 l2 : list (option A)) :
  COUNT (l1 ++ l2) = COUNT l1 + COUNT l2.
Proof. unfold COUNT, not_null. rewrite omap_app, length_app. lia. Qed.

Lemma joined_rows_count s (term : list OfferingRow) :
  COUNT ((λ r : OfferingRow * option EnrollmentRow, e_EnrollmentID <$> r.2)
         <$> (term ≫= joined_enrollments s)) =
  foldr Z.add 0 (enrollment_count s <$> term).
Proof.
  induction term as [|co term IH]; [done|].
  rewrite bind_cons, fmap_app, COUNT_app, joined_enrollments_count, IH. done.
Qed.

Lemma joined_rows_sum (f : OfferingRow → Z) s (term : list OfferingRow) :
  SUM ((λ r : OfferingRow * option EnrollmentRow, Some (f r.1))
       <$> (term ≫= joined_enrollments s)) =
  match term with
  | [] => None
  | _ => Some (foldr Z.add 0
                 ((λ co, f co * Z.max 1 (enrollment_count s co)) <$> term))
  end.
Proof.
  rewrite SUM_some.
  assert (foldr Z.add 0
            ((λ r : OfferingRow * option EnrollmentRow, f r.1)
             <$> (term ≫= joined_enrollments s)) =
          foldr Z.add 0
            ((λ co, f co * Z.max 1 (enrollment_count s co)) <$> term)) as ->.
  { induction term as [|co term IH]; [done|].
    rewrite bind_cons, fmap_app, sum_app, joined_enrollments_sum, IH. done. }
  destruct term as [|co term]; [done|]. rewrite bind_cons.
  pose proof (joined_enrollments_length s co) as Hlen.
  destruct (joined_enrollments s co); [simpl in Hlen; lia|done].
Qed.

Lemma length_remove_dups `{EqDecision A} (l1 l2 : list A) :
  (∀ x, x ∈ l1 ↔ x ∈ l2) →
  length (remove_dups l1) = length (remove_dups l2).
Proof.
  intros Hel. apply Permutation_length.
  apply NoDup_Permutation; [apply NoDup_remove_dups..|].
  intros x. by rewrite !elem_of_remove_dups.
Qed.

Lemma joined_enrollments_elem s co r :
  r ∈ joined_enrollments s co ↔
  r.1 = co ∧
  match r.2 with
  | Some e => e ∈ offering_enrollments (co_OfferingID co) s
  | None => offering_enrollments (co_OfferingID co) s = []
  end.
Proof.
  unfold joined_enrollments. rewrite offering_enrollments_flip.
  destruct (offering_enrollments _ _) as [|e es] eqn:Hen.
  - rewrite list_elem_of_singleton. destruct r as [co' [e'|]]; simpl.
    + split; [done|]. by intros [_ ?%not_elem_of_nil].
    + split; [by intros [= ->]|by intros [-> _]].
  - rewrite list_elem_of_fmap. destruct r as [co' [e'|]]; simpl.
    + split; [by intros (e0 & [= -> ->] & ?)|]. intros [-> ?]. eauto.
    + split; [by intros (e0 & [=] & ?)|by intros [_ ?]].
Qed.

Lemma semester_enrollment_report_run semester year c :
  semester_enrollment_report semester year c =
  (mkConn (committed c) (txn c) (lastrowid c) (-1),
   inr (fetchone (semester_query semester year (view c)))).
Proof. reflexivity. Qed.

(** X16. What the columns of [semester_enrollment_report] are, whatever the
    store.  With the offerings of the term and, for each, the number n of
    its enrollment rows:
    - CoursesOffered is the number of distinct identifiers among the
      offerings, UniqueStudents the number of distinct students among
      their enrollment rows, TotalEnrollments the sum of the n;
    - TotalCapacity and TotalEnrolled add MaxStudents and CurrentEnrollment
      once for each row of the join, so max(1, n) times for each offering,
      and are [NULL] when the term has no offering;
    - the call never raises and leaves the store alone. *)
Theorem semester_enrollment_report_columns (semester : string) (year : Z)
    (c : Conn) :
  let s := view c in
  let term := term_offerings semester year s in
  ∃ c' row,
    semester_enrollment_report semester year c = (c', inr (Some row)) ∧
    committed c' = committed c ∧ txn c' = txn c ∧
    CoursesOffered row =
      Z.of_nat (length (remove_dups (co_OfferingID <$> term))) ∧
    UniqueStudents row =
      Z.of_nat (length (remove_dups
        (e_StudentID <$>
           (term ≫= λ co, offering_enrollments (co_OfferingID co) s)))) ∧
    TotalEnrollments row = foldr Z.add 0 (enrollment_count s <$> term) ∧
    TotalCapacity row =
      match term with
      | [] => None
      | _ => Some (foldr Z.add 0
                     ((λ co, co_MaxStudents co * Z.max 1 (enrollment_count s co))
                      <$> term))
      end ∧
    TotalEnrolled row =
      match term with
      | [] => None
      | _ => Some (foldr Z.add 0
                     ((λ co, co_CurrentEnrollment co
                             * Z.max 1 (enrollment_count s co)) <$> term))
      end.
Proof.
  intros s term. rewrite semester_enrollment_report_run.
  unfold semester_query, fetchone; simpl. fold s.
  rewrite semester_from_by_offering. fold term.
  eexists _, _. split; [reflexivity|]. simpl. split_and!; try done.
  - unfold COUNT_DISTINCT. f_equal. rewrite not_null_some.
    apply length_remove_dups. intros id.
    rewrite !list_elem_of_fmap. setoid_rewrite list_elem_of_bind. split.
    + intros (r & -> & co & Hr & Hco).
      apply joined_enrollments_offering in Hr as ->. eauto.
    + intros (co & -> & Hco).
      pose proof (joined_enrollments_length s co) as Hlen.
      destruct (joined_enrollments s co) as [|r rs] eqn:Hj;
        [simpl in Hlen; lia|].
      exists r. split.
      * f_equal. symmetry. apply (joined_enrollments_offering s co).
        rewrite Hj. left.
      * exists co. split; [rewrite Hj; left|done].
  - unfold COUNT_DISTINCT. f_equal. rewrite not_null_fmap.
    apply length_remove_dups. intros sid.
    rewrite list_elem_of_omap, list_elem_of_fmap.
    setoid_rewrite list_elem_of_bind. split.
    + intros ([co' [e|]] & (co & Hr & Hco) & Hsid); simpl in Hsid; [|done].
      injection Hsid as <-.
      apply joined_enrollments_elem in Hr as [Heq He]. simpl in *. subst co'.
      eauto.
    + intros (e & -> & co & He & Hco).
      exists (co, Some e). split; [|done].
      exists co. split; [|done]. by apply joined_enrollments_elem.
  - apply joined_rows_count.
  - apply (joined_rows_sum co_MaxStudents).
  - apply (joined_rows_sum co_CurrentEnrollment).
Qed.

Lemma zero_capacity s (term : list OfferingRow) :
  Forall (λ co, co_MaxStudents co = 0) term →
  foldr Z.add 0
    ((λ co, co_MaxStudents co * Z.max 1 (enrollment_count s co)) <$> term) = 0.
Proof.
  induction 1 as [|co term Hco _ IH]; [done|].
  rewrite fmap_cons. simpl foldr. rewrite IH, Hco. lia.
Qed.

(** X17. When no offering of the term has capacity, so in particular when
    the term has no offering, [semester_enrollment_report] still returns a
    row, with [NULL] as OverallFillRate: the division by a zero or [NULL]
    capacity raises nothing.  For a term without offerings the row is 0, 0,
    0, [NULL], [NULL], [NULL]. *)
Theorem semester_enrollment_report_without_capacity (semester : string)
    (year : Z) (c : Conn) :
  Forall (λ co, co_MaxStudents co = 0)
         (term_offerings semester year (view c)) →
  ∃ c' row,
    semester_enrollment_report semester year c = (c', inr (Some row)) ∧
    OverallFillRate row = None ∧
    (term_offerings semester year (view c) = [] →
     row = mkSemesterRow 0 0 0 None None None).
Proof.
  intros Hzero. rewrite semester_enrollment_report_run.
  unfold semester_query, fetchone; simpl.
  rewrite semester_from_by_offering.
  pose proof (joined_rows_sum co_MaxStudents (view c)
                (term_offerings semester year (view c))) as Hcap.
  simpl in Hcap. rewrite Hcap. clear Hcap.
  eexists _, _. split; [reflexivity|]. simpl.
  destruct (term_offerings semester year (view c)) as [|co term] eqn:Hterm.
  - split; [done|]. intros _. reflexivity.
  - split; [|done]. rewrite (zero_capacity _ _ Hzero).
    unfold ROUND, sql_mul, sql_div, CAST_FLOAT.
    by destruct (SUM _).
Qed.

Lemma semester_enrollment_report_without_capacity_witness :
  ∃ c' row,
    semester_enrollment_report "Summer" 2024 (connect graded_store) =
      (c', inr (Some row)) ∧
    OverallFillRate row = None ∧
    (term_offerings "Summer" 2024 graded_store = [] →
     row = mkSemesterRow 0 0 0 None None None).
Proof.
  apply (semester_enrollment_report_without_capacity "Summer" 2024
           (connect graded_store)).
  apply (bool_decide_unpack _). vm_compute. exact I.
Defined.

(** * [get_course_enrollment_stats] *)

Lemma stats_from_by_offering course_id s :
  stats_from course_id s =
  course_offerings course_id s ≫= joined_enrollments s.
Proof.
  unfold stats_from, course_offerings. rewrite filter_bind, bind_filter.
  apply list_bind_ext; [|done]. intros co.
  exact (filter_joined_enrollments (λ co, co_CourseID co = course_id) s co).
Qed.

Lemma joined_enrollments_head s co :
  ∃ oe, head (joined_enrollments s co) = Some (co, oe).
Proof.
  unfold joined_enrollments. destruct (filter _ _) as [|e es]; simpl; eauto.
Qed.

Lemma stats_group course_id s co :
  NoDup (co_OfferingID <$> CourseOffering s) →
  co ∈ course_offerings course_id s →
  filter (λ r, stats_key r = stats_key (co, None)) (stats_from course_id s) =
  joined_enrollments s co.
Proof.
  intros Hnd Hco. rewrite stats_from_by_offering, filter_bind.
  rewrite (bind_select _ _ co); [| |done|].
  - apply filter_all. intros r Hr%joined_enrollments_offering.
    unfold stats_key. by rewrite Hr.
  - apply NoDup_filter. by eapply NoDup_fmap_1.
  - intros co' Hco' Hne. apply filter_none.
    intros r Hr%joined_enrollments_offering. unfold stats_key. rewrite Hr.
    simpl. intros [= Hid _ _ _].
    apply Hne. apply list_elem_of_filter in Hco as [_ Hco].
    apply list_elem_of_filter in Hco' as [_ Hco'].
    by eapply (NoDup_fmap_inj_on co_OfferingID).
Qed.

(** Under unique offering identifiers the groups of the query are the
    offerings of the course, each with its rows of the join. *)
Lemma stats_groups course_id s g :
  NoDup (co_OfferingID <$> CourseOffering s) →
  g ∈ group_by stats_key (stats_from course_id s) ↔
  ∃ co, co ∈ course_offerings course_id s
        ∧ g = (stats_key (co, None), joined_enrollments s co).
Proof.
  intros Hnd. unfold group_by.
  rewrite list_elem_of_fmap. setoid_rewrite elem_of_remove_dups.
  setoid_rewrite list_elem_of_fmap. split.
  - intros (k & -> & r & -> & Hr).
    rewrite stats_from_by_offering in Hr.
    apply list_elem_of_bind in Hr as (co & Hr & Hco).
    apply joined_enrollments_offering in Hr.
    exists co. split; [done|].
    assert (stats_key r = stats_key (co, None)) as ->
      by (unfold stats_key; by rewrite Hr).
    f_equal. by apply stats_group.
  - intros (co & Hco & ->).
    exists (stats_key (co, None)). split; [f_equal; symmetry; by apply stats_group|].
    destruct (joined_enrollments_head s co) as [oe Hhead].
    exists (co, oe). split; [done|].
    rewrite stats_from_by_offering. apply list_elem_of_bind.
    exists co. split; [|done].
    destruct (joined_enrollments s co); simplify_eq/=. left.
Qed.

Lemma COUNT_CASE_some (test : option string → Prop)
    `{!∀ g, Decision (test g)} (es : list EnrollmentRow) :
  COUNT_CASE test (Some <$> es) =
  Z.of_nat (length (filter (λ e, test (e_Grade e)) es)).
Proof.
  unfold COUNT_CASE. rewrite <- list_fmap_compose.
  apply (COUNT_case (λ e, test (e_Grade e))).
Qed.

Lemma joined_enrollments_snd s co :
  snd <$> joined_enrollments s co =
  match offering_enrollments (co_OfferingID co) s with
  | [] => [None]
  | es => Some <$> es
  end.
Proof.
  unfold joined_enrollments. rewrite offering_enrollments_flip.
  destruct (offering_enrollments _ _) as [|e es]; [done|].
  by rewrite <- list_fmap_compose.
Qed.

Lemma stats_row_offering s co :
  stats_row (stats_key (co, None), joined_enrollments s co) =
  offering_stats s co.
Proof.
  unfold stats_row, stats_key, offering_stats. simpl.
  rewrite joined_enrollments_snd.
  destruct (offering_enrollments (co_OfferingID co) s) as [|e es] eqn:Hes;
    [done|].
  set (l := e :: es).
  rewrite !COUNT_CASE_some, <- list_fmap_compose.
  by rewrite (COUNT_some e_EnrollmentID).
Qed.

#[global] Instance stats_order_total : Total stats_order.
Proof.
  intros g1 g2. unfold stats_order, newest_first.
  destruct (stats_order_key g1) as [[y1 s1]|],
    (stats_order_key g2) as [[y2 s2]|]; simpl; auto.
  destruct (Z.lt_trichotomy y1 y2) as [?|[?|?]]; [auto..| |auto].
  destruct (String.leb_total s1 s2); auto.
Qed.

Lemma Sorted_fmap_inv {A B} (f : A → B) (R1 : relation A) (R2 : relation B)
    (l : list A) :
  (∀ x y, R2 (f x) (f y) → R1 x y) → Sorted R2 (f <$> l) → Sorted R1 l.
Proof.
  intros HR. induction l as [|a l IH]; [constructor|].
  rewrite fmap_cons. intros [Hl Hhd]%Sorted_inv.
  constructor; [by apply IH|].
  destruct l as [|b l]; constructor. apply HR. by inversion Hhd.
Qed.

Lemma get_course_enrollment_stats_run course_id c :
  get_course_enrollment_stats course_id c =
  (mkConn (committed c) (txn c) (lastrowid c) (-1),
   inr (stats_query course_id (view c))).
Proof. reflexivity. Qed.

(** X18. Offering identifiers being unique, [get_course_enrollment_stats]
    returns one row for each offering of the course and no other, an
    offering without enrollments included (with counts 0).  The row has the
    offering's own MaxStudents and CurrentEnrollment, the fill rate
    round(CurrentEnrollment / MaxStudents * 100, 1) ([NULL] when MaxStudents
    is 0), the number of its enrollment rows and the numbers of those
    graded A, B, C, and D or F.  The rows come latest year first and, within
    a year, by semester as text. *)
Theorem get_course_enrollment_stats_rows (course_id : Z) (c : Conn) :
  NoDup (co_OfferingID <$> CourseOffering (view c)) →
  ∃ c' offerings,
    get_course_enrollment_stats course_id c =
      (c', inr (offering_stats (view c) <$> offerings)) ∧
    offerings ≡ₚ course_offerings course_id (view c) ∧
    Sorted (λ co1 co2, newest_first (co_Year co1, co_Semester co1)
                                    (co_Year co2, co_Semester co2))
           offerings ∧
    committed c' = committed c ∧ txn c' = txn c.
Proof.
  intros Hnd. rewrite get_course_enrollment_stats_run. unfold stats_query.
  set (s := view c) in *.
  set (G := λ co, (stats_key (co, None), joined_enrollments s co)).
  set (groups := group_by stats_key (stats_from course_id s)).
  assert (NoDup (course_offerings course_id s)) as Hcos
    by (apply NoDup_filter; by eapply NoDup_fmap_1).
  assert (groups ≡ₚ G <$> course_offerings course_id s) as Hgroups.
  { apply NoDup_Permutation.
    - unfold groups, group_by.
      apply NoDup_fmap_2_strong; [|apply NoDup_remove_dups].
      by intros k1 k2 _ _ [= ->].
    - apply NoDup_fmap_2_strong; [|done].
      intros co1 co2 [_ H1]%list_elem_of_filter [_ H2]%list_elem_of_filter
        [= Hid _].
      by eapply (NoDup_fmap_inj_on co_OfferingID).
    - intros g. unfold groups. rewrite stats_groups by done.
      rewrite list_elem_of_fmap. split; intros (co & ? & ?); eauto. }
  assert (merge_sort stats_order groups ≡ₚ map G (course_offerings course_id s))
    as Hsorted by (by rewrite merge_sort_Permutation).
  apply Permutation_map_inv in Hsorted as (offerings & Heq & Hperm).
  exists (mkConn (committed c) (txn c) (lastrowid c) (-1)), offerings.
  split_and!; [|done| |done|done].
  - rewrite Heq. change (map G offerings) with (G <$> offerings).
    rewrite <- list_fmap_compose. do 2 f_equal.
    apply list_fmap_ext. intros ? co ?. apply stats_row_offering.
  - eapply (Sorted_fmap_inv G _ stats_order).
    + intros co1 co2. unfold stats_order, stats_order_key, G; simpl.
      destruct (joined_enrollments_head s co1) as [oe1 ->].
      by destruct (joined_enrollments_head s co2) as [oe2 ->].
    + change (G <$> offerings) with (map G offerings). rewrite <- Heq.
      apply Sorted_merge_sort; apply _.
Qed.

Lemma get_course_enrollment_stats_rows_witness :
  ∃ c' offerings,
    get_course_enrollment_stats 1 (connect graded_store) =
      (c', inr (offering_stats graded_store <$> offerings)) ∧
    offerings ≡ₚ course_offerings 1 graded_store ∧
    Sorted (λ co1 co2, newest_first (co_Year co1, co_Semester co1)
                                    (co_Year co2, co_Semester co2))
           offerings ∧
    committed c' = graded_store ∧ txn c' = None.
Proof.
  apply (get_course_enrollment_stats_rows 1 (connect graded_store)).
  apply (bool_decide_unpack _). vm_compute. exact I.
Defined.

Lemma COUNT_cons {A} (x : option A) (l : list (option A)) :
  COUNT (x :: l) = (if x is Some _ then 1 else 0) + COUNT l.
Proof.
  unfold COUNT, not_null. destruct x; csimpl; lia.
Qed.

Lemma COUNT_nonneg {A} (l : list (option A)) : 0 ≤ COUNT l.
Proof. unfold COUNT. lia. Qed.

Lemma grade_buckets (es : list (option EnrollmentRow)) :
  COUNT_CASE (λ g, g = Some "A") es + COUNT_CASE (λ g, g = Some "B") es
  + COUNT_CASE (λ g, g = Some "C") es
  + COUNT_CASE (λ g, g = Some "D" ∨ g = Some "F") es
  ≤ COUNT ((λ oe : option EnrollmentRow, e_EnrollmentID <$> oe) <$> es).
Proof.
  unfold COUNT_CASE. induction es as [|oe es IH]; [done|].
  rewrite !fmap_cons, !COUNT_cons.
  destruct oe as [e|]; simpl; [|lia].
  repeat case_decide; simpl; try lia;
    repeat match goal with H : _ ∨ _ |- _ => destruct H end; congruence.
Qed.

(** X19. Whatever the store, in every row that
    [get_course_enrollment_stats] returns the four grade counts are not
    negative and add up to at most TotalEnrollments: an enrollment is
    counted in at most one of A, B, C and D-or-F, and one graded P or W or
    not graded is in none. *)
Theorem grade_counts_within_total (course_id : Z) (c c' : Conn)
    (rows : list StatsRow) (r : StatsRow) :
  get_course_enrollment_stats course_id c = (c', inr rows) →
  r ∈ rows →
  0 ≤ GradeA r ∧ 0 ≤ GradeB r ∧ 0 ≤ GradeC r ∧ 0 ≤ GradeDF r ∧
  GradeA r + GradeB r + GradeC r + GradeDF r ≤ stats_TotalEnrollments r.
Proof.
  rewrite get_course_enrollment_stats_run. intros [= _ <-].
  unfold stats_query. intros (g & -> & _)%list_elem_of_fmap.
  destruct g as [[[[id term] max_students] current] grows]. simpl.
  split_and!; try apply COUNT_nonneg. apply grade_buckets.
Qed.

Lemma grade_counts_within_total_witness :
  let r := mkStatsRow "Spring 2024" 30 3 (Some (10 # 1)) 3 1 0 0 1 in
  0 ≤ GradeA r ∧ 0 ≤ GradeB r ∧ 0 ≤ GradeC r ∧ 0 ≤ GradeDF r ∧
  GradeA r + GradeB r + GradeC r + GradeDF r ≤ stats_TotalEnrollments r.
Proof.
  intros r.
  apply (grade_counts_within_total 1 (connect graded_store)
           (mkConn graded_store None None (-1))
           [r]).
  - by vm_compute.
  - left.
Defined.
